(** * API-monitoring backend: a shallow embedding of [main.py] and [schemas.py]

    The service keeps three MongoDB collections ([project], [apikey],
    [apievent]) and exposes handlers that issue keys, ingest request
    telemetry and aggregate statistics.  Handlers are embedded as functions
    over an explicit database value; the sources of non-determinism (clock,
    generated object ids, random tokens) are read from a [world] record.
    The database is assumed to be connected ([db] is not [None]).  The
    storage helpers of [database.py] are not part of the sources and are
    modelled from the specification. *)

From Stdlib Require Import ZArith QArith String Ascii List Lia.
From Stdlib Require Qcanon.
From stdpp Require Import base option list gmap strings fin_maps sorting.

Close Scope Q_scope.
Local Open Scope string_scope.
Local Open Scope Z_scope.
Local Open Scope list_scope.

(** ** Python exceptions and the result of a call *)

(** Every exception class used by the handlers derives from [Exception], so
    an [except Exception] clause catches each constructor below. *)
Inductive exn :=
  | HTTPException (status_code : Z) (detail : string)
  | InvalidId (oid : string)
  | ValidationError (loc : string).

Inductive result (A : Type) :=
  | Ok (a : A)
  | Raise (e : exn).
Arguments Ok {A} a.
Arguments Raise {A} e.

#[global] Instance result_ret : MRet result := fun A a => Ok a.

#[global] Instance result_bind : MBind result := fun A B k r =>
  match r with
  | Ok a => k a
  | Raise e => Raise e
  end.

(** [try: body except Exception: handler] *)
Definition try_except {A} (body : result A) (handler : exn -> result A) : result A :=
  match body with
  | Ok a => Ok a
  | Raise e => handler e
  end.

(** ** Python strings *)

(** Truth value of an [Optional[str]]: [None] and [""] are falsy. *)
Definition truthy_str (o : option string) : bool :=
  match o with
  | Some (String _ _) => true
  | _ => false
  end.

(** [a or b] on optional strings. *)
Definition py_or (a b : option string) : option string :=
  if truthy_str a then a else b.

(** [s.split(",")]: never returns the empty list. *)
Fixpoint split_comma (s : string) : list string :=
  match s with
  | EmptyString => [""]
  | String c s' =>
      if Ascii.eqb c ","%char then "" :: split_comma s'
      else match split_comma s' with
           | h :: t => String c h :: t
           | [] => [String c ""]
           end
  end.

(** Characters removed by [str.strip()] (code points below 256 for which
    [str.isspace] holds). *)
Definition isspace (c : ascii) : bool :=
  let n := N_of_ascii c in
  ((9 <=? n) && (n <=? 13) || (28 <=? n) && (n <=? 32) || (n =? 133) || (n =? 160))%N.

Fixpoint lstrip (s : string) : string :=
  match s with
  | EmptyString => ""
  | String c s' => if isspace c then lstrip s' else s
  end.

Fixpoint rstrip (s : string) : string :=
  match s with
  | EmptyString => ""
  | String c s' =>
      match rstrip s' with
      | EmptyString => if isspace c then "" else String c ""
      | r => String c r
      end
  end.

Definition strip (s : string) : string := rstrip (lstrip s).

(** ** BSON values *)

(** An [ObjectId] is represented by its canonical rendering, the lower-case
    hexadecimal string that [str(oid)] returns. *)
Record ObjectId := Oid { oid_hex : string }.

Definition is_hex_digit (c : ascii) : bool :=
  let n := N_of_ascii c in
  ((48 <=? n) && (n <=? 57) || (65 <=? n) && (n <=? 70) || (97 <=? n) && (n <=? 102))%N.

Definition lower_hex (c : ascii) : ascii :=
  let n := N_of_ascii c in
  if ((65 <=? n) && (n <=? 70))%N then ascii_of_N (n + 32) else c.

Fixpoint string_forallb (p : ascii -> bool) (s : string) : bool :=
  match s with
  | EmptyString => true
  | String c s' => p c && string_forallb p s'
  end.

Fixpoint string_map (f : ascii -> ascii) (s : string) : string :=
  match s with
  | EmptyString => ""
  | String c s' => String (f c) (string_map f s')
  end.

(** The white space that [bytes.fromhex] skips: the ASCII characters for
    which [Py_ISSPACE] holds. *)
Definition is_ascii_space (c : ascii) : bool :=
  let n := N_of_ascii c in
  ((9 <=? n) && (n <=? 13) || (n =? 32))%N.

(** [bytes.fromhex(s)], rendered as the lower-case hexadecimal digits of
    the decoded bytes: white space before a byte is skipped, and a byte is
    two hexadecimal digits next to each other; anything else is an error. *)
Fixpoint fromhex (s : string) : option string :=
  match s with
  | EmptyString => Some ""
  | String c s' =>
      if is_ascii_space c then fromhex s'
      else match s' with
           | String c' s'' =>
               if is_hex_digit c && is_hex_digit c'
               then match fromhex s'' with
                    | Some h => Some (String (lower_hex c) (String (lower_hex c') h))
                    | None => None
                    end
               else None
           | EmptyString => None
           end
  end.

(** The strings that [ObjectId] accepts: 24 characters that [bytes.fromhex]
    decodes.  These are the strings of 24 hexadecimal digits and, since
    white space is skipped, also shorter runs of digit pairs padded with
    white space to 24 characters. *)
Definition ObjectId_is_valid (s : string) : bool :=
  (String.length s =? 24)%nat && bool_decide (is_Some (fromhex s)).

(** [ObjectId(s)] for a string argument: raises [InvalidId] unless [s] is
    accepted. *)
Definition ObjectId_new (s : string) : result ObjectId :=
  if ObjectId_is_valid s then Ok (Oid (default "" (fromhex s))) else Raise (InvalidId s).

(** [str(oid)] *)
Definition str_oid (o : ObjectId) : string := oid_hex o.

(** The scalar values stored in documents.  Floats are idealised as exact
    rationals; a date is a count of milliseconds since the Unix epoch. *)
Inductive value :=
  | VNone
  | VBool (b : bool)
  | VInt (n : Z)
  | VFloat (q : Q)
  | VStr (s : string)
  | VOid (o : ObjectId)
  | VDate (ms : Z).

#[global] Instance ObjectId_eq_dec : EqDecision ObjectId.
Proof. solve_decision. Defined.
#[global] Instance Q_eq_dec : EqDecision Q.
Proof. solve_decision. Defined.
#[global] Instance value_eq_dec : EqDecision value.
Proof. solve_decision. Defined.
#[global] Instance exn_eq_dec : EqDecision exn.
Proof. solve_decision. Defined.

Definition opt_str (o : option string) : value :=
  match o with Some s => VStr s | None => VNone end.

Definition opt_int (o : option Z) : value :=
  match o with Some n => VInt n | None => VNone end.

(** ** Dates *)

(** A Python [datetime] in UTC is a count of microseconds since the epoch;
    the driver stores it with millisecond precision. *)
Definition timedelta_hours (h : Z) : Z := h * 3600000000.

Definition datetime_to_millis (us : Z) : Z := us / 1000.

(** [{"$dateTrunc": {"date": d, "unit": "hour"}}] in UTC. *)
Definition dateTrunc_hour (ms : Z) : Z := ms - ms mod 3600000.

(** Proleptic Gregorian date (year, month, day) of a day count. *)
Definition civil_from_days (days : Z) : Z * Z * Z :=
  let z := days + 719468 in
  let era := z / 146097 in
  let doe := z - era * 146097 in
  let yoe := (doe - doe / 1460 + doe / 36524 - doe / 146096) / 365 in
  let doy := doe - (365 * yoe + yoe / 4 - yoe / 100) in
  let mp := (5 * doy + 2) / 153 in
  let d := doy - (153 * mp + 2) / 5 + 1 in
  let m := if mp <? 10 then mp + 3 else mp - 9 in
  let y := yoe + era * 400 in
  (if m <=? 2 then y + 1 else y, m, d).

Definition digit (n : Z) : ascii := ascii_of_N (48 + Z.to_N (n mod 10)).

(** Decimal rendering of [n] on exactly [width] digits. *)
Fixpoint zero_pad (width : nat) (n : Z) : string :=
  match width with
  | O => ""
  | S w => zero_pad w (n / 10) +:+ String (digit n) ""
  end.

(** [dt.isoformat()] for the naive datetime decoded from a stored date:
    the fraction is printed only when it is not zero. *)
Definition isoformat (ms : Z) : string :=
  let '(y, m, d) := civil_from_days (ms / 86400000) in
  let r := ms mod 86400000 in
  let frac := r mod 1000 in
  zero_pad 4 y +:+ "-" +:+ zero_pad 2 m +:+ "-" +:+ zero_pad 2 d +:+ "T" +:+
  zero_pad 2 (r / 3600000) +:+ ":" +:+ zero_pad 2 (r / 60000 mod 60) +:+ ":" +:+
  zero_pad 2 (r / 1000 mod 60) +:+
  (if frac =? 0 then "" else "." +:+ zero_pad 6 (frac * 1000)).

(** ** Documents, queries and collections *)

(** A stored document: the driver gives every inserted document an
    [ObjectId] under ["_id"]; the other entries are the inserted fields. *)
Record document := Document { _id : ObjectId; fields : gmap string value }.

(** The Python [dict] a query returns for a document. *)
Definition dict (d : document) : gmap string value :=
  <["_id" := VOid (_id d)]> (fields d).

Definition doc_get (d : document) (k : string) : option value := dict d !! k.

(** A field condition of a query document: a plain value asks for
    equality, [{"$gte": v}] for a lower bound. *)
Inductive cond :=
  | C_eq (v : value)
  | C_gte (v : value).

Abbreviation query := (list (string * cond)).

Definition as_number (v : value) : option Q :=
  match v with
  | VInt n => Some (inject_Z n)
  | VFloat q => Some q
  | _ => None
  end.

(** Equality of stored values: numbers compare by value, everything else
    structurally. *)
Definition value_eqb (x v : value) : bool :=
  match as_number x, as_number v with
  | Some a, Some b => Qeq_bool a b
  | None, None => bool_decide (x = v)
  | _, _ => false
  end.

(** [x >= v], defined only between values of the same kind. *)
Definition value_geb (x v : value) : bool :=
  match as_number x, as_number v with
  | Some a, Some b => Qle_bool b a
  | None, None =>
      match x, v with
      | VDate a, VDate b => b <=? a
      | VStr a, VStr b => String.leb b a
      | VOid a, VOid b => String.leb (oid_hex b) (oid_hex a)
      | VBool a, VBool b => implb b a
      | VNone, VNone => true
      | _, _ => false
      end
  | _, _ => false
  end.

(** A missing field matches only a query for [None]. *)
Definition cond_holds (c : cond) (field : option value) : bool :=
  match c, field with
  | C_eq v, Some x => value_eqb x v
  | C_gte v, Some x => value_geb x v
  | C_eq v, None | C_gte v, None => bool_decide (v = VNone)
  end.

Definition matches (q : query) (d : document) : bool :=
  forallb (fun kc => cond_holds (snd kc) (doc_get d (fst kc))) q.

(** [collection.find_one(q)]: the first matching document in store order. *)
Definition find_one (q : query) (coll : list document) : option document :=
  List.find (matches q) coll.

(** [collection.count_documents(q)] *)
Definition count_documents (q : query) (coll : list document) : nat :=
  length (List.filter (matches q) coll).

(** The database maps a collection name to its documents in insertion
    order; an absent collection is empty. *)
Abbreviation database := (gmap string (list document)).

Definition collection (db : database) (name : string) : list document :=
  default [] (db !! name).

(** [db[name].insert_one(data)] with the generated [ObjectId] [oid].  The
    limits of the store's encoding are not modelled: integers are [Z] and
    are stored whatever their size, where the driver refuses an integer
    outside the signed 8-byte range (and a document above the size limit)
    and stores nothing.  Where a property below concludes that a call
    stored a document, it describes payloads within these limits. *)
Definition insert_one (name : string) (oid : ObjectId) (data : gmap string value)
    (db : database) : database :=
  <[name := collection db name ++ [Document oid data]]> db.

(** ** Aggregation stages *)

(** [{"$match": q}] *)
Definition stage_match (q : query) (docs : list document) : list document :=
  List.filter (matches q) docs.

Fixpoint Qsum (l : list Q) : Q :=
  match l with
  | [] => 0%Q
  | x :: l' => (x + Qsum l')%Q
  end.

Definition numeric_field (k : string) (d : document) : option Q :=
  doc_get d k ≫= as_number.

(** [{"$avg": "$k"}] over a group: the mean of the numeric values of the
    field, [None] when there is none.  The engine computes the mean in
    double precision; here it is the exact rational mean, which is the
    engine's result only when no rounding occurs.  The properties below
    use its exact value only for whole-number latencies with a whole-number
    mean, and otherwise only its presence and its sign. *)
Definition acc_avg (k : string) (docs : list document) : value :=
  match omap (numeric_field k) docs with
  | [] => VNone
  | x :: xs => VFloat (Qred (Qsum (x :: xs) / inject_Z (Z.of_nat (length (x :: xs)))))
  end.

Record avg_row := AvgRow { avg_id : value; avg : value }.

(** [{"$group": {"_id": None, "avg": {"$avg": "$k"}}}]: one row for the
    whole input, no row for an empty input. *)
Definition stage_group_avg (k : string) (docs : list document) : list avg_row :=
  match docs with
  | [] => []
  | _ :: _ => [AvgRow VNone (acc_avg k docs)]
  end.

(** The hour bucket of a document whose ["created_at"] is a date. *)
Definition created_hour (d : document) : option Z :=
  match doc_get d "created_at" with
  | Some (VDate ms) => Some (dateTrunc_hour ms)
  | _ => None
  end.

(** [{"$sum": 1}] per group key: each key of the input is mapped to the
    number of times it occurs. *)
Definition tally (keys : list Z) : gmap Z nat :=
  foldr (fun h m => <[h := S (default O (m !! h))]> m) ∅ keys.

(** [{"$group": {"_id": <hour of created_at>, "count": {"$sum": 1}}}]:
    one entry per distinct bucket, holding the number of documents in it. *)
Definition stage_group_hour (docs : list document) : gmap Z nat :=
  tally (omap created_hour docs).

Definition row_le (a b : Z * nat) : Prop := fst a <= fst b.

#[global] Instance row_le_dec : RelDecision row_le.
Proof. intros a b. unfold row_le. apply _. Defined.

(** [{"$sort": {"_id": 1}}] on the grouped rows [(_id, count)]. *)
Definition stage_sort_id (rows : gmap Z nat) : list (Z * nat) :=
  merge_sort row_le (map_to_list rows).

(** The hourly pipeline of the stats handler, from the lower bound [since]
    of the window (a datetime) on. *)
Definition hourly_pipeline (project_id : string) (since : Z) (docs : list document)
    : list (Z * nat) :=
  stage_sort_id (stage_group_hour (stage_match
    [("project_id", C_eq (VStr project_id));
     ("created_at", C_gte (VDate (datetime_to_millis since)))] docs)).

(** ** What a call reads from its environment *)

Record world := World {
  utcnow : Z;               (* datetime.now(timezone.utc), in microseconds *)
  next_oid : ObjectId;      (* the ObjectId the driver generates on insert *)
  token_urlsafe : string    (* secrets.token_urlsafe(24) *)
}.

(** ** schemas.py *)

Class BaseModel (A : Type) := model_dump : A -> gmap string value.

Module Project.
Record t := new { name : string; slug : string; description : option string }.
End Project.

Module Apikey.
Record t := new { project_id : string; name : string; key : string; active : bool }.
End Apikey.

Module Apievent.
Record t := new {
  project_id : string;
  api_key_id : option string;
  method : string;
  path : string;
  status : Z;
  latency_ms : Q;
  ip : option string;
  user_agent : option string;
  request_size : option Z;
  response_size : option Z;
  error_message : option string
}.

Definition methods : list string :=
  ["GET"; "POST"; "PUT"; "PATCH"; "DELETE"; "OPTIONS"; "HEAD"].

Definition ge0 (o : option Z) : bool :=
  match o with Some n => 0 <=? n | None => true end.

(** The field constraints: [Literal[...]], [ge=100, le=599], [ge=0]. *)
Definition field_constraints (method : string) (status : Z) (latency_ms : Q)
    (request_size response_size : option Z) : bool :=
  bool_decide (method ∈ methods)
  && (100 <=? status) && (status <=? 599)
  && Qle_bool 0 latency_ms
  && ge0 request_size && ge0 response_size.

Definition constraints (e : t) : bool :=
  field_constraints (method e) (status e) (latency_ms e)
                    (request_size e) (response_size e).

(** Constructing the model validates it. *)
Definition validate (e : t) : result t :=
  if constraints e then Ok e else Raise (ValidationError "Apievent").
End Apievent.

#[global] Instance Project_model : BaseModel Project.t := fun p =>
  {[ "name" := VStr (Project.name p);
     "slug" := VStr (Project.slug p);
     "description" := opt_str (Project.description p) ]}.

#[global] Instance Apikey_model : BaseModel Apikey.t := fun k =>
  {[ "project_id" := VStr (Apikey.project_id k);
     "name" := VStr (Apikey.name k);
     "key" := VStr (Apikey.key k);
     "active" := VBool (Apikey.active k) ]}.

#[global] Instance Apievent_model : BaseModel Apievent.t := fun e =>
  {[ "project_id" := VStr (Apievent.project_id e);
     "api_key_id" := opt_str (Apievent.api_key_id e);
     "method" := VStr (Apievent.method e);
     "path" := VStr (Apievent.path e);
     "status" := VInt (Apievent.status e);
     "latency_ms" := VFloat (Apievent.latency_ms e);
     "ip" := opt_str (Apievent.ip e);
     "user_agent" := opt_str (Apievent.user_agent e);
     "request_size" := opt_int (Apievent.request_size e);
     "response_size" := opt_int (Apievent.response_size e);
     "error_message" := opt_str (Apievent.error_message e) ]}.

(** ** database.py *)

(** Modelled from the spec: [create_document] of [database.py], which is
    not among the sources.  The storage adapter's "insert one" persists the
    record in the named collection and returns the generated id as a
    string; the creation timestamp is "server-assigned ... at insert time"
    and, since neither the handler nor the schema sets it, it is the
    adapter that stamps ["created_at"] with the current UTC time. *)
Definition create_document {A} `{BaseModel A} (w : world) (collection_name : string)
    (data : A) (db : database) : string * database :=
  let data_dict := <["created_at" := VDate (datetime_to_millis (utcnow w))]> (model_dump data) in
  (str_oid (next_oid w), insert_one collection_name (next_oid w) data_dict db).

(** Modelled from the spec: [get_documents] of [database.py], which is not
    among the sources.  The storage adapter's "find many" returns the
    records of the named collection that satisfy the filter, at most
    [limit] of them. *)
Definition get_documents (collection_name : string) (filter_dict : query) (limit : nat)
    (db : database) : list document :=
  take limit (List.filter (matches filter_dict) (collection db collection_name)).

(** ** main.py *)

Module CreateProject.
Record t := new { name : string; slug : string; description : option string }.
End CreateProject.

Module CreateApiKey.
Record t := new { project_id : string; name : string }.
End CreateApiKey.

Module IngestEvent.
Record t := new {
  project_slug : string;
  api_key : option string;
  method : string;
  path : string;
  status : Z;
  latency_ms : Q;
  ip : option string;
  user_agent : option string;
  request_size : option Z;
  response_size : option Z;
  error_message : option string
}.
End IngestEvent.

(** The body of the stats response. *)
Module Stats.
Record point := Point { t : string; count : nat }.
Record response := Response {
  total : nat;
  errors : nat;
  avg_latency : value;
  hourly : list point
}.
End Stats.

(** Truth value of the result of [find_one]: [None] and the empty [dict]
    are falsy. *)
Definition truthy_doc (o : option document) : bool :=
  match o with
  | Some d => negb (bool_decide (dict d = ∅))
  | None => false
  end.

(** [to_str_id] is only called on documents read from a cursor, so the
    [doc is None] exit is never taken; the ["_id"] of a stored document is an
    [ObjectId], which is truthy. *)
Definition to_str_id (doc : document) : gmap string value :=
  let d := dict doc in
  match d !! "_id" with
  | Some (VOid o) => <["id" := VStr (str_oid o)]> (delete "_id" d)
  | _ => d
  end.

(** [POST /api/projects] *)
Definition create_project (w : world) (payload : CreateProject.t) (db : database)
    : result (gmap string value) * database :=
  let proj := Project.new (CreateProject.name payload) (CreateProject.slug payload)
                          (CreateProject.description payload) in
  let '(pid, db') := create_document w "project" proj db in
  (Ok {[ "id" := VStr pid ]}, db').

(** [GET /api/projects] *)
Definition list_projects (db : database) : list (gmap string value) :=
  let docs := get_documents "project" [] 50 db in
  map to_str_id docs.

(** [POST /api/keys] *)
Definition create_key (w : world) (payload : CreateApiKey.t) (db : database)
    : result (gmap string value) * database :=
  let project_exists : result unit :=
    try_except
      (oid ← ObjectId_new (CreateApiKey.project_id payload);
       let proj := find_one [("_id", C_eq (VOid oid))] (collection db "project") in
       if negb (truthy_doc proj)
       then Raise (HTTPException 404 "Project not found")
       else Ok tt)
      (fun _ => Raise (HTTPException 400 "Invalid project id")) in
  match project_exists with
  | Raise e => (Raise e, db)
  | Ok _ =>
      let key_value := token_urlsafe w in
      let doc := Apikey.new (CreateApiKey.project_id payload) (CreateApiKey.name payload)
                            key_value true in
      let '(kid, db') := create_document w "apikey" doc db in
      (Ok {[ "id" := VStr kid; "key" := VStr key_value ]}, db')
  end.

(** [GET /api/keys] *)
Definition list_keys (project_id : string) (db : database) : list (gmap string value) :=
  let docs := get_documents "apikey" [("project_id", C_eq (VStr project_id))] 100 db in
  map to_str_id docs.

(** The value that [ingest] binds to [api_key_id] once the project [p] is
    resolved. *)
Definition ingest_api_key_id (event : IngestEvent.t) (p : document) (db : database)
    : option string :=
  if truthy_str (IngestEvent.api_key event) then
    let key_doc := find_one [("key", C_eq (opt_str (IngestEvent.api_key event)));
                             ("project_id", C_eq (VStr (str_oid (_id p))));
                             ("active", C_eq (VBool true))]
                            (collection db "apikey") in
    match key_doc with
    | Some k => if truthy_doc key_doc then Some (str_oid (_id k)) else None
    | None => None
    end
  else None.

(** The value that [ingest] binds to [ip]. *)
Definition ingest_ip (event : IngestEvent.t) (x_forwarded_for : option string)
    : option string :=
  py_or (IngestEvent.ip event)
        (match x_forwarded_for with
         | Some h => if truthy_str x_forwarded_for
                     then Some (strip (hd "" (split_comma h))) else None
         | None => None
         end).

(** The value that [ingest] binds to [ua]. *)
Definition ingest_ua (event : IngestEvent.t) (user_agent : option string) : option string :=
  py_or (IngestEvent.user_agent event) user_agent.

(** [POST /ingest]; the two optional arguments are the [X-Forwarded-For]
    and [User-Agent] request headers. *)
Definition ingest (w : world) (event : IngestEvent.t)
    (x_forwarded_for user_agent : option string) (db : database)
    : result (gmap string value) * database :=
  let proj := find_one [("slug", C_eq (VStr (IngestEvent.project_slug event)))]
                       (collection db "project") in
  match proj with
  | Some p =>
      if negb (truthy_doc proj) then (Raise (HTTPException 404 "Project not found"), db) else
      let api_key_id := ingest_api_key_id event p db in
      let ip := ingest_ip event x_forwarded_for in
      let ua := ingest_ua event user_agent in
      match Apievent.validate
              (Apievent.new (str_oid (_id p)) api_key_id
                 (IngestEvent.method event) (IngestEvent.path event)
                 (IngestEvent.status event) (IngestEvent.latency_ms event)
                 ip ua
                 (IngestEvent.request_size event) (IngestEvent.response_size event)
                 (IngestEvent.error_message event)) with
      | Raise e => (Raise e, db)
      | Ok doc =>
          let '(eid, db') := create_document w "apievent" doc db in
          (Ok {[ "id" := VStr eid ]}, db')
      end
  | None => (Raise (HTTPException 404 "Project not found"), db)
  end.

(** [GET /api/projects/{project_id}/stats] *)
Definition project_stats (w : world) (project_id : string) (db : database)
    : result Stats.response :=
  _ ← try_except (ObjectId_new project_id)
        (fun _ => Raise (HTTPException 400 "Invalid project id"));
  let events := collection db "apievent" in
  let total := count_documents [("project_id", C_eq (VStr project_id))] events in
  let errors := count_documents [("project_id", C_eq (VStr project_id));
                                 ("status", C_gte (VInt 400))] events in
  let agg := stage_group_avg "latency_ms"
               (stage_match [("project_id", C_eq (VStr project_id))] events) in
  let avg_latency := match agg with
                     | row :: _ => avg row
                     | [] => VInt 0
                     end in
  let since := utcnow w - timedelta_hours 24 in
  let hourly := hourly_pipeline project_id since events in
  let hourly_series := map (fun h => Stats.Point (isoformat (fst h)) (snd h)) hourly in
  Ok (Stats.Response total errors avg_latency hourly_series).

(** ** Runs of the service *)

(** The calls that write to the database. *)
Inductive call :=
  | CreateProjectCall (payload : CreateProject.t)
  | CreateKeyCall (payload : CreateApiKey.t)
  | IngestCall (event : IngestEvent.t) (x_forwarded_for user_agent : option string).

Definition handle (w : world) (c : call) (db : database)
    : result (gmap string value) * database :=
  match c with
  | CreateProjectCall payload => create_project w payload db
  | CreateKeyCall payload => create_key w payload db
  | IngestCall event x_forwarded_for user_agent =>
      ingest w event x_forwarded_for user_agent db
  end.

(** [reachable now db]: a service started on an empty store, whose clock
    never runs backwards, can hold [db] when the clock shows [now]. *)
Inductive reachable : Z -> database -> Prop :=
  | reachable_start now : reachable now ∅
  | reachable_wait now now' db : reachable now db -> now <= now' -> reachable now' db
  | reachable_call now db w c :
      reachable now db -> now <= utcnow w -> reachable (utcnow w) (snd (handle w c db)).

(** ** What the handlers store *)

(** The document that [create_document] adds for the record [data]. *)
Definition stored {A} `{BaseModel A} (w : world) (data : A) : document :=
  Document (next_oid w)
    (<["created_at" := VDate (datetime_to_millis (utcnow w))]> (model_dump data)).

(** The documents stored from a sequence of event records, each with the
    clock and the generated id of its insert. *)
Definition stored_all (recs : list (world * Apievent.t)) : list document :=
  (fun we => stored (fst we) (snd we)) <$> recs.

(** The record that [ingest] builds for project [p]. *)
Definition ingest_record (event : IngestEvent.t) (p : document) (db : database)
    (x_forwarded_for user_agent : option string) : Apievent.t :=
  Apievent.new (str_oid (_id p)) (ingest_api_key_id event p db)
    (IngestEvent.method event) (IngestEvent.path event)
    (IngestEvent.status event) (IngestEvent.latency_ms event)
    (ingest_ip event x_forwarded_for) (ingest_ua event user_agent)
    (IngestEvent.request_size event) (IngestEvent.response_size event)
    (IngestEvent.error_message event).

(** ** Ingestion in the words of the specification *)

(** The payload satisfies the constraints of the event schema. *)
Definition acceptable (event : IngestEvent.t) : bool :=
  Apievent.field_constraints (IngestEvent.method event) (IngestEvent.status event)
    (IngestEvent.latency_ms event) (IngestEvent.request_size event)
    (IngestEvent.response_size event).

(** [kd] is an active key of project [p] whose value is [k]. *)
Definition active_key_of (p : document) (k : string) (kd : document) : Prop :=
  doc_get kd "key" = Some (VStr k)
  /\ doc_get kd "project_id" = Some (VStr (str_oid (_id p)))
  /\ doc_get kd "active" = Some (VBool true).

(** The text of a header value before its first comma. *)
Fixpoint first_entry (h : string) : string :=
  match h with
  | EmptyString => ""
  | String c h' => if Ascii.eqb c ","%char then "" else String c (first_entry h')
  end.

(** The client address of an event: the explicit field when it is given
    and not empty, else the trimmed first entry of the forwarded-for header
    when that is given and not empty, else nothing. *)
Definition resolved_ip (ip x_forwarded_for : option string) : option string :=
  match ip with
  | Some (String c s) => Some (String c s)
  | _ =>
      match x_forwarded_for with
      | Some (String c h) => Some (strip (first_entry (String c h)))
      | _ => None
      end
  end.

(** An empty string in an optional field, read as an absent field. *)
Definition absent_if_empty (o : option string) : option string :=
  match o with
  | Some EmptyString => None
  | _ => o
  end.

(** The payload with empty [ip] and [user_agent] taken away. *)
Definition without_empty (event : IngestEvent.t) : IngestEvent.t :=
  IngestEvent.new (IngestEvent.project_slug event) (IngestEvent.api_key event)
    (IngestEvent.method event) (IngestEvent.path event) (IngestEvent.status event)
    (IngestEvent.latency_ms event)
    (absent_if_empty (IngestEvent.ip event))
    (absent_if_empty (IngestEvent.user_agent event))
    (IngestEvent.request_size event) (IngestEvent.response_size event)
    (IngestEvent.error_message event).

(** ** The hourly series in the words of the specification *)

(** The creation time of a stored event of project [pid]. *)
Definition event_time (pid : string) (d : document) : option Z :=
  match doc_get d "project_id", doc_get d "created_at" with
  | Some (VStr p), Some (VDate ms) => if String.eqb p pid then Some ms else None
  | _, _ => None
  end.

Definition ms_per_hour : Z := 3600000.

(** [d] is an event of project [pid] created in the 24 hours that end at
    the call time [now], within the hour that starts at [h]. *)
Definition in_bucket (pid : string) (now : Z) (h : Z) (d : document) : bool :=
  match event_time pid d with
  | Some ms =>
      (datetime_to_millis now - 24 * ms_per_hour <=? ms) && (ms <=? datetime_to_millis now)
      && (h <=? ms) && (ms <? h + ms_per_hour)
  | None => false
  end.

(** No stored event carries a creation time later than [now]. *)
Definition stamped_before (now : Z) (docs : list document) : Prop :=
  forall d ms, d ∈ docs -> doc_get d "created_at" = Some (VDate ms) ->
               ms <= datetime_to_millis now.

(** ** The totals in the words of the specification *)

(** The stored events that carry the project id [pid], given the records
    they were stored from. *)
Definition carries (pid : string) (we : world * Apievent.t) : bool :=
  String.eqb (Apievent.project_id (snd we)) pid.

Definition events_of (pid : string) (recs : list (world * Apievent.t)) : list Apievent.t :=
  snd <$> List.filter (carries pid) recs.







(** ** Further notions used in the properties *)

(** The constraints of the event schema, stated on the payload. *)
Definition meets_schema (event : IngestEvent.t) : Prop :=
  IngestEvent.method event ∈ Apievent.methods
  /\ 100 <= IngestEvent.status event <= 599
  /\ (0 <= IngestEvent.latency_ms event)%Q
  /\ (forall n, IngestEvent.request_size event = Some n -> 0 <= n)
  /\ (forall n, IngestEvent.response_size event = Some n -> 0 <= n).

(** The user agent of an event: the explicit field when it is given and
    not empty, else the request header as it is, else nothing. *)
Definition resolved_ua (user_agent header : option string) : option string :=
  match user_agent with
  | Some (String c s) => Some (String c s)
  | _ => header
  end.

(** [d] is an event of project [pid] created at or after the call time
    [now] minus 24 hours. *)
Definition in_window (pid : string) (now : Z) (d : document) : bool :=
  match event_time pid d with
  | Some ms => datetime_to_millis now - 24 * ms_per_hour <=? ms
  | None => false
  end.

Definition no_comma (s : string) : bool :=
  string_forallb (fun c => negb (Ascii.eqb c ","%char)) s.

Definition first_char (s : string) : option ascii :=
  match s with
  | EmptyString => None
  | String c _ => Some c
  end.

Fixpoint last_char (s : string) : option ascii :=
  match s with
  | EmptyString => None
  | String c EmptyString => Some c
  | String _ s' => last_char s'
  end.

(** Neither the first nor the last character of [s] is white space. *)
Definition trimmed (s : string) : Prop :=
  (forall c, first_char s = Some c -> isspace c = false)
  /\ (forall c, last_char s = Some c -> isspace c = false).

(** A stored key is active and names, under some spelling of its id, a
    stored project. *)
Definition key_refers (db : database) (kd : document) : Prop :=
  doc_get kd "active" = Some (VBool true)
  /\ exists pid p, doc_get kd "project_id" = Some (VStr pid)
                   /\ p ∈ collection db "project"
                   /\ ObjectId_new pid = Ok (_id p).

(** A stored event names a stored project, and its key, if it has one, is
    a stored active key of that project. *)
Definition event_refers (db : database) (d : document) : Prop :=
  exists p, p ∈ collection db "project"
            /\ doc_get d "project_id" = Some (VStr (str_oid (_id p)))
            /\ (doc_get d "api_key_id" = Some VNone
                \/ exists k kd, kd ∈ collection db "apikey"
                                /\ active_key_of p k kd
                                /\ doc_get d "api_key_id" = Some (VStr (str_oid (_id kd)))).

(** A stored event is within the bounds of the event schema. *)
Definition event_in_schema (d : document) : Prop :=
  exists m st lat,
    doc_get d "method" = Some (VStr m) /\ m ∈ Apievent.methods
    /\ doc_get d "status" = Some (VInt st) /\ 100 <= st <= 599
    /\ doc_get d "latency_ms" = Some (VFloat lat) /\ (0 <= lat)%Q.

(** ** Sample data *)

Module Sample.
Definition shop_id : string := "507f1f77bcf86cd799439011".
Definition blog_id : string := "507f1f77bcf86cd799439022".
Definition unknown_id : string := "507f1f77bcf86cd799439099".

Definition shop : document :=
  Document (Oid shop_id)
    {[ "name" := VStr "Shop"; "slug" := VStr "shop"; "description" := VNone;
       "created_at" := VDate 1699990000000 ]}.

Definition blog : document :=
  Document (Oid blog_id)
    {[ "name" := VStr "Blog"; "slug" := VStr "blog"; "description" := VNone;
       "created_at" := VDate 1699990000500 ]}.

(** A key issued to the blog project. *)
Definition blog_key : document :=
  Document (Oid "65a000000000000000000001")
    {[ "project_id" := VStr blog_id; "name" := VStr "ci"; "key" := VStr "blog-token";
       "active" := VBool true; "created_at" := VDate 1699990001000 ]}.

Definition db0 : database := {[ "project" := [shop; blog]; "apikey" := [blog_key] ]}.

Definition w0 : world :=
  World 1700000000123456 (Oid "65a000000000000000000002") "Zm9vYmFyYmF6cXV4MDEyMzQ1Njc4OWFi".

Definition new_key : CreateApiKey.t := CreateApiKey.new shop_id "ci".

Definition event (slug : string) (api_key ip user_agent : option string) : IngestEvent.t :=
  IngestEvent.new slug api_key "GET" "/orders" 200 (10 # 1) ip user_agent None None None.

Definition created : gmap string value := {[ "id" := VStr "65a000000000000000000002" ]}.

(** Stored events: three of the shop, four of the blog (one of them
    older than a day at the time of [w1]). *)
Definition at_time (us : Z) (oid : string) : world := World us (Oid oid) "".

Definition record (pid : string) (status : Z) (latency_ms : Q) : Apievent.t :=
  Apievent.new pid None "GET" "/orders" status latency_ms None None None None None.

Definition history : list (world * Apievent.t) :=
  [ (at_time 1700003400000000 "65b000000000000000000001", record blog_id 200 (5 # 1));
    (at_time 1700000000123456 "65b000000000000000000002", record shop_id 200 (10 # 1));
    (at_time 1699995000000000 "65b000000000000000000003", record blog_id 503 (40 # 1));
    (at_time 1700000100000000 "65b000000000000000000004", record shop_id 404 (20 # 1));
    (at_time 1699900000000000 "65b000000000000000000005", record blog_id 200 (7 # 1));
    (at_time 1699995300000000 "65b000000000000000000006", record blog_id 200 (9 # 1));
    (at_time 1699999000000000 "65b000000000000000000007", record shop_id 500 (30 # 1)) ].

Definition db1 : database := <["apievent" := stored_all history]> db0.

Definition w1 : world :=
  World 1700003600000000 (Oid "65a000000000000000000003") "".
End Sample.

(** ** Further sample data *)

Module Scenario.
(** The shop id in upper case: another spelling of the same [ObjectId]. *)
Definition shop_id_upper : string := "507F1F77BCF86CD799439011".

Definition upper_key : CreateApiKey.t := CreateApiKey.new shop_id_upper "ci".

(** A second project with the slug of the shop, stored after it. *)
Definition shop_twin : document :=
  Document (Oid "507f1f77bcf86cd799439033")
    {[ "name" := VStr "Shop 2"; "slug" := VStr "shop"; "description" := VNone;
       "created_at" := VDate 1699990000900 ]}.

Definition twins : database :=
  {[ "project" := [Sample.blog; Sample.shop; shop_twin] ]}.

(** A payload with a status outside 100..599. *)
Definition bad_event : IngestEvent.t :=
  IngestEvent.new "shop" None "GET" "/orders" 999 (10 # 1) None None None None None.

Definition full_event : IngestEvent.t :=
  IngestEvent.new "shop" None "POST" "/orders" 503 (125 # 10) None (Some "sdk/1.2")
    (Some 512) (Some 0) (Some "upstream timeout").



(** A short run of the service from the empty store. *)
Definition wa : world := World 1700000000000000 (Oid "65c000000000000000000001") "".
Definition wb : world := World 1700000001000000 (Oid "65c000000000000000000002") "tok-1".
Definition wc : world := World 1700000002000000 (Oid "65c000000000000000000003") "".

Definition new_project : CreateProject.t := CreateProject.new "Shop" "shop" (Some "web shop").

Definition db_a : database := snd (handle wa (CreateProjectCall new_project) ∅).

Definition db_b : database :=
  snd (handle wb (CreateKeyCall (CreateApiKey.new "65c000000000000000000001" "ci")) db_a).

Definition db_c : database :=
  snd (handle wc (IngestCall (Sample.event "shop" (Some "tok-1") None None)
                             (Some "203.0.113.7") (Some "curl/8")) db_b).

(** The key and the event that this run stores. *)
Definition issued_key : document :=
  stored wb (Apikey.new "65c000000000000000000001" "ci" "tok-1" true).

Definition logged_event : document :=
  stored wc (Apievent.new "65c000000000000000000001" (Some "65c000000000000000000002")
               "GET" "/orders" 200 (10 # 1) (Some "203.0.113.7") (Some "curl/8")
               None None None).
End Scenario.

(** * Properties *)

(** ** Sample renderings of stored dates *)

Example isoformat_sample :
  isoformat 1700000000000 = "2023-11-14T22:13:20"
  /\ isoformat (dateTrunc_hour 1700000000123) = "2023-11-14T22:00:00"
  /\ isoformat 1700000000123 = "2023-11-14T22:13:20.123000"
  /\ isoformat 951782400000 = "2000-02-29T00:00:00"
  /\ isoformat 0 = "1970-01-01T00:00:00"
  /\ isoformat 1709251199000 = "2024-02-29T23:59:59"
  /\ isoformat 1735689600000 = "2025-01-01T00:00:00".
Proof. vm_compute. repeat split. Qed.

(** ** Documents and queries *)

(** Case analysis on the members of a list that is given in full. *)
Ltac elem_cases H :=
  vm_compute in H;
  repeat (apply elem_of_cons in H as [-> | H]);
  [.. | by apply elem_of_nil in H].

Lemma dict_lookup_id d : dict d !! "_id" = Some (VOid (_id d)).
Proof. unfold dict. apply lookup_insert_eq. Qed.

Lemma doc_get_field d k : k ≠ "_id" -> doc_get d k = fields d !! k.
Proof. intros Hk. unfold doc_get, dict. by rewrite lookup_insert_ne. Qed.

Lemma dict_nonempty d : dict d ≠ ∅.
Proof.
  intros He. pose proof (dict_lookup_id d) as Hl.
  rewrite He, lookup_empty in Hl. discriminate.
Qed.

Lemma truthy_doc_Some d : truthy_doc (Some d) = true.
Proof.
  unfold truthy_doc. rewrite bool_decide_eq_false_2; [done | apply dict_nonempty].
Qed.

(** An equality condition on a value that is neither a number nor [None]
    holds exactly of the fields that store this value. *)
Lemma cond_eq_spec v f :
  as_number v = None -> v ≠ VNone ->
  cond_holds (C_eq v) f = true <-> f = Some v.
Proof.
  intros Hn Hv. destruct f as [x|]; simpl.
  - unfold value_eqb. rewrite Hn. destruct (as_number x) eqn:Hx.
    + split; [discriminate | intros [= ->]; congruence].
    + rewrite bool_decide_eq_true. split; congruence.
  - rewrite bool_decide_eq_true. split; [congruence | discriminate].
Qed.

Lemma matches_cons k c q d :
  matches ((k, c) :: q) d = cond_holds c (doc_get d k) && matches q d.
Proof. reflexivity. Qed.

Lemma matches_str k s d :
  matches [(k, C_eq (VStr s))] d = true <-> doc_get d k = Some (VStr s).
Proof.
  rewrite matches_cons. change (matches [] d) with true.
  rewrite andb_true_r. by apply cond_eq_spec.
Qed.

Lemma filter_none {A} (f : A -> bool) (l : list A) :
  (forall x, x ∈ l -> f x = false) -> List.filter f l = [].
Proof.
  induction l as [|a l IH]; intros H; simpl; [done |].
  rewrite (H a) by constructor. apply IH. intros x Hx. apply H. by constructor.
Qed.

Lemma find_one_None q coll :
  (forall d, d ∈ coll -> matches q d = false) -> find_one q coll = None.
Proof.
  unfold find_one. induction coll as [|a l IH]; intros H; simpl; [done |].
  rewrite (H a) by constructor. apply IH. intros x Hx. apply H. by constructor.
Qed.

Lemma find_one_Some q coll d :
  find_one q coll = Some d -> d ∈ coll /\ matches q d = true.
Proof.
  unfold find_one. intros H. apply List.find_some in H as [Hin Hm].
  split; [by apply list_elem_of_In | done].
Qed.

Lemma collection_insert_one name oid data db :
  collection (insert_one name oid data db) name = collection db name ++ [Document oid data].
Proof. unfold collection at 1, insert_one. by rewrite lookup_insert_eq. Qed.

(** ** Issuing keys *)

Lemma matches_id o d :
  matches [("_id", C_eq (VOid o))] d = true <-> _id d = o.
Proof.
  rewrite matches_cons. change (matches [] d) with true.
  rewrite andb_true_r, cond_eq_spec by done.
  unfold doc_get. rewrite dict_lookup_id. split; congruence.
Qed.

(** Whatever goes wrong while the project is looked up, the handler of the
    [try] block answers 400: the 404 raised inside the block is an
    [Exception] like any other. *)
Lemma create_key_missing_project w payload db oid :
  ObjectId_new (CreateApiKey.project_id payload) = Ok oid ->
  (forall p, p ∈ collection db "project" -> _id p ≠ oid) ->
  create_key w payload db = (Raise (HTTPException 400 "Invalid project id"), db).
Proof.
  intros Hv Hno. unfold create_key. rewrite Hv. simpl.
  rewrite find_one_None; [done |].
  intros d Hd. apply not_true_is_false. rewrite matches_id. by apply Hno.
Qed.

Lemma create_key_never_404 w payload db detail :
  fst (create_key w payload db) ≠ Raise (HTTPException 404 detail).
Proof.
  unfold create_key, ObjectId_new.
  destruct (ObjectId_is_valid _); simpl; [| discriminate].
  destruct (negb (truthy_doc _)); simpl; discriminate.
Qed.

(** C2 (as the code behaves): issuing a key for the well-formed identifier
    of a project that does not exist stores nothing, but the call is
    answered with status 400 "Invalid project id", not with 404. *)
Theorem create_key_unknown_project :
  ObjectId_is_valid Sample.unknown_id = true
  /\ (forall p, p ∈ collection Sample.db0 "project" -> _id p ≠ Oid Sample.unknown_id)
  /\ create_key Sample.w0 (CreateApiKey.new Sample.unknown_id "ci") Sample.db0
     = (Raise (HTTPException 400 "Invalid project id"), Sample.db0).
Proof.
  split; [reflexivity |]. split.
  - intros p Hp. elem_cases Hp; discriminate.
  - apply (create_key_missing_project _ _ _ (Oid Sample.unknown_id)); [reflexivity |].
    intros p Hp. elem_cases Hp; discriminate.
Qed.

(** ** Ingestion: resolving the project *)

(** C4: an ingestion call whose [project_slug] is the slug of no stored
    project fails with 404 "Project not found" and leaves the database as
    it was (in particular no event is stored). *)
Theorem ingest_unknown_slug w event x_forwarded_for user_agent db :
  (forall p, p ∈ collection db "project" ->
             doc_get p "slug" ≠ Some (VStr (IngestEvent.project_slug event))) ->
  ingest w event x_forwarded_for user_agent db
  = (Raise (HTTPException 404 "Project not found"), db).
Proof.
  intros Hno. unfold ingest. rewrite find_one_None; [done |].
  intros d Hd. apply not_true_is_false. rewrite matches_str. by apply Hno.
Qed.

Lemma ingest_unknown_slug_witness :
  ingest Sample.w0 (Sample.event "nope" None None None) None None Sample.db0
  = (Raise (HTTPException 404 "Project not found"), Sample.db0)
  /\ collection Sample.db0 "apievent" = [].
Proof.
  split; [| reflexivity].
  apply (ingest_unknown_slug Sample.w0 (Sample.event "nope" None None None) None None Sample.db0).
  intros p Hp. elem_cases Hp; vm_compute; discriminate.
Defined.

(** ** Listing keys *)

Lemma to_str_id_unfold d :
  to_str_id d = <["id" := VStr (str_oid (_id d))]> (delete "_id" (dict d)).
Proof. unfold to_str_id. by rewrite dict_lookup_id. Qed.

Lemma to_str_id_lookup d k :
  k ≠ "id" -> k ≠ "_id" -> to_str_id d !! k = fields d !! k.
Proof.
  intros H1 H2. rewrite to_str_id_unfold.
  rewrite lookup_insert_ne, lookup_delete_ne by done. by apply doc_get_field.
Qed.

Lemma to_str_id_lookup_id d : to_str_id d !! "id" = Some (VStr (str_oid (_id d))).
Proof. rewrite to_str_id_unfold. apply lookup_insert_eq. Qed.

(** What a successful [create_key] returns and stores. *)
Lemma create_key_Ok w payload db r db' :
  create_key w payload db = (Ok r, db') ->
  r = {[ "id" := VStr (str_oid (next_oid w)); "key" := VStr (token_urlsafe w) ]}
  /\ db' = insert_one "apikey" (next_oid w)
             (<["created_at" := VDate (datetime_to_millis (utcnow w))]>
                (model_dump (Apikey.new (CreateApiKey.project_id payload)
                                        (CreateApiKey.name payload) (token_urlsafe w) true)))
             db.
Proof.
  unfold create_key.
  destruct (try_except _ _) as [[]|e]; [| discriminate].
  unfold create_document. intros [= <- <-]. done.
Qed.

(** C1 (as the code behaves): the list-keys endpoint returns the stored
    key records of the project, the first hundred of them, each with its
    ["key"] field, the plaintext value, as stored; so a key that was just
    issued comes back in plaintext from list-keys for its project whenever
    fewer than a hundred keys of that project were stored before it. *)
Theorem list_keys_exposes_key w payload db r db' :
  create_key w payload db = (Ok r, db') ->
  (count_documents [("project_id", C_eq (VStr (CreateApiKey.project_id payload)))]
     (collection db "apikey") < 100)%nat ->
  (forall pid rec, rec ∈ list_keys pid db' ->
     exists d, d ∈ collection db' "apikey"
               /\ doc_get d "project_id" = Some (VStr pid)
               /\ rec !! "key" = doc_get d "key")
  /\ exists rec, rec ∈ list_keys (CreateApiKey.project_id payload) db'
                 /\ r !! "key" = Some (VStr (token_urlsafe w))
                 /\ rec !! "key" = r !! "key"
                 /\ rec !! "id" = r !! "id".
Proof.
  intros Hck Hlt. apply create_key_Ok in Hck as [-> ->]. split.
  - intros pid rec Hrec. unfold list_keys, get_documents in Hrec.
    apply list_elem_of_fmap in Hrec as (d & -> & Hd).
    apply elem_of_take in Hd as (i & Hd & _).
    apply list_elem_of_lookup_2, list_elem_of_In, List.filter_In in Hd as [Hin Hm].
    exists d. split; [by apply list_elem_of_In |]. split; [by apply matches_str |].
    rewrite to_str_id_lookup by done. symmetry. by apply doc_get_field.
  - set (data := <["created_at" := _]> _).
    exists (to_str_id (Document (next_oid w) data)).
    split; [| split; [reflexivity | split]].
    + unfold list_keys, get_documents. apply list_elem_of_fmap_2.
      rewrite collection_insert_one, List.filter_app.
      assert (Hm : matches [("project_id", C_eq (VStr (CreateApiKey.project_id payload)))]
                     (Document (next_oid w) data) = true).
      { apply matches_str. rewrite doc_get_field by done. reflexivity. }
      cbn [List.filter]. rewrite Hm.
      unfold count_documents in Hlt.
      rewrite take_app. apply elem_of_app. right.
      destruct (100 - _)%nat eqn:Hn; [lia |]. simpl. constructor.
    + rewrite to_str_id_lookup by done. reflexivity.
    + rewrite to_str_id_lookup_id. reflexivity.
Qed.

Lemma list_keys_exposes_key_witness :
  exists rec,
    rec ∈ list_keys Sample.shop_id (snd (create_key Sample.w0 Sample.new_key Sample.db0))
    /\ rec !! "key" = Some (VStr (token_urlsafe Sample.w0)).
Proof.
  destruct (list_keys_exposes_key Sample.w0 Sample.new_key Sample.db0
              {[ "id" := VStr "65a000000000000000000002";
                 "key" := VStr (token_urlsafe Sample.w0) ]}
              (snd (create_key Sample.w0 Sample.new_key Sample.db0)))
    as [_ (rec & Hin & Hkey & Hrec & _)].
  - vm_compute. reflexivity.
  - vm_compute. lia.
  - exists rec. split; [exact Hin |]. rewrite Hrec. exact Hkey.
Defined.

(** C1 (the claim as stated fails): after a key is issued for the shop
    project, list-keys for that project returns one record whose ["key"] is
    the plaintext value that the issuing call returned. *)
Lemma list_keys_returns_plaintext :
  fst (create_key Sample.w0 Sample.new_key Sample.db0)
  = Ok {[ "id" := VStr "65a000000000000000000002";
          "key" := VStr "Zm9vYmFyYmF6cXV4MDEyMzQ1Njc4OWFi" ]}
  /\ list_keys Sample.shop_id (snd (create_key Sample.w0 Sample.new_key Sample.db0))
     = [ {[ "id" := VStr "65a000000000000000000002";
            "project_id" := VStr Sample.shop_id;
            "name" := VStr "ci";
            "key" := VStr "Zm9vYmFyYmF6cXV4MDEyMzQ1Njc4OWFi";
            "active" := VBool true;
            "created_at" := VDate 1700000000123 ]} ].
Proof. split; vm_compute; reflexivity. Qed.

(** ** Statistics of a project without events *)

Lemma matches_project_false pid q d :
  doc_get d "project_id" ≠ Some (VStr pid) ->
  matches (("project_id", C_eq (VStr pid)) :: q) d = false.
Proof.
  intros Hne. rewrite matches_cons. apply andb_false_iff. left.
  apply not_true_is_false. by rewrite cond_eq_spec.
Qed.

Lemma stage_sort_id_empty : stage_sort_id ∅ = [].
Proof. unfold stage_sort_id. rewrite map_to_list_empty. reflexivity. Qed.

(** C6: for a well-formed [project_id] that no stored event refers to
    (whether or not a project has this id) the stats call succeeds with
    total 0, errors 0, average latency 0 and an empty hourly series. *)
Theorem project_stats_no_events w project_id db :
  ObjectId_is_valid project_id = true ->
  (forall d, d ∈ collection db "apievent" ->
             doc_get d "project_id" ≠ Some (VStr project_id)) ->
  project_stats w project_id db = Ok (Stats.Response 0 0 (VInt 0) []).
Proof.
  intros Hv Hno. unfold project_stats, ObjectId_new. rewrite Hv. simpl.
  unfold count_documents, hourly_pipeline, stage_match.
  rewrite !filter_none by (intros d Hd; apply matches_project_false; by apply Hno).
  unfold stage_group_hour. simpl. rewrite stage_sort_id_empty. reflexivity.
Qed.

Lemma project_stats_no_events_witness :
  project_stats Sample.w1 Sample.unknown_id Sample.db1 = Ok (Stats.Response 0 0 (VInt 0) []).
Proof.
  apply (project_stats_no_events Sample.w1 Sample.unknown_id Sample.db1).
  - reflexivity.
  - intros d Hd. elem_cases Hd; vm_compute; discriminate.
Defined.

(** ** The hourly pipeline *)

Lemma tally_lookup keys h :
  tally keys !! h = match length (List.filter (Z.eqb h) keys) with
                    | O => None
                    | S n => Some (S n)
                    end.
Proof.
  induction keys as [|k keys IH]; simpl; [apply lookup_empty |].
  fold (tally keys). destruct (Z.eqb_spec h k) as [-> | Hne].
  - rewrite lookup_insert_eq, IH. simpl. by destruct (length _).
  - rewrite lookup_insert_ne by done. apply IH.
Qed.

#[global] Instance row_le_trans : Transitive row_le.
Proof. intros a b c. unfold row_le. lia. Qed.

#[global] Instance row_le_total : Total row_le.
Proof. intros a b. unfold row_le. lia. Qed.

Lemma stage_sort_id_elem rows h c :
  (h, c) ∈ stage_sort_id rows <-> rows !! h = Some c.
Proof.
  unfold stage_sort_id. rewrite merge_sort_Permutation. apply elem_of_map_to_list.
Qed.

Lemma strictly_sorted (l : list (Z * nat)) :
  StronglySorted row_le l -> NoDup l.*1 ->
  StronglySorted (fun a b => fst a < fst b) l.
Proof.
  induction 1 as [|a l Hs IH Hall]; intros Hnd; [constructor |].
  rewrite fmap_cons in Hnd. apply NoDup_cons in Hnd as [Hnotin Hnd].
  constructor; [by apply IH |].
  rewrite List.Forall_forall in Hall. apply List.Forall_forall. intros b Hb.
  specialize (Hall b Hb). unfold row_le in Hall.
  assert (b.1 ≠ a.1); [| lia].
  intros Heq. apply Hnotin. rewrite <- Heq.
  apply list_elem_of_fmap_2. by apply list_elem_of_In.
Qed.

Lemma stage_sort_id_sorted rows :
  StronglySorted (fun a b => fst a < fst b) (stage_sort_id rows).
Proof.
  apply strictly_sorted.
  - apply StronglySorted_merge_sort; apply _.
  - unfold stage_sort_id. rewrite merge_sort_Permutation. apply NoDup_fst_map_to_list.
Qed.

Lemma dateTrunc_hour_spec ms h :
  dateTrunc_hour ms = h <-> h mod ms_per_hour = 0 /\ h <= ms < h + ms_per_hour.
Proof.
  unfold dateTrunc_hour, ms_per_hour. split.
  - intros <-. pose proof (Z.mod_pos_bound ms 3600000 ltac:(lia)).
    split; [| lia].
    rewrite Zminus_mod, Zmod_mod, Z.sub_diag. reflexivity.
  - intros [Hm Hb]. apply Z.mod_divide in Hm as [k ->]; [| lia].
    assert (ms mod 3600000 = ms - k * 3600000); [| lia].
    symmetry. apply (Zmod_unique _ _ k); lia.
Qed.

Lemma event_time_spec pid d ms :
  event_time pid d = Some ms <->
  doc_get d "project_id" = Some (VStr pid) /\ doc_get d "created_at" = Some (VDate ms).
Proof.
  unfold event_time.
  destruct (doc_get d "project_id") as [[| | | | p | |]|];
    try (split; [discriminate | intros [[=] _]]).
  destruct (doc_get d "created_at") as [[| | | | | | t]|];
    try (split; [discriminate | intros [_ [=]]]).
  destruct (String.eqb_spec p pid) as [-> | Hne].
  - split; [intros [= ->]; done | intros [_ [= ->]]; done].
  - split; [discriminate | intros [[= ->] _]; done].
Qed.

Lemma cond_gte_date lo f :
  cond_holds (C_gte (VDate lo)) f = true <-> exists ms, f = Some (VDate ms) /\ lo <= ms.
Proof.
  destruct f as [x|]; cbn -[Z.leb].
  - destruct x; cbn -[Z.leb]; try (split; [discriminate | intros (? & [=] & _)]).
    rewrite Z.leb_le. split; [eauto | intros (? & [= ->] & ?); done].
  - split; [discriminate | intros (? & [=] & _)].
Qed.

(** The [$match] stage of the hourly pipeline selects the events of the
    project created at or after the lower bound. *)
Lemma matches_window pid lo d :
  matches [("project_id", C_eq (VStr pid)); ("created_at", C_gte (VDate lo))] d = true
  <-> exists ms, event_time pid d = Some ms /\ lo <= ms.
Proof.
  rewrite !matches_cons. change (matches [] d) with true.
  rewrite andb_true_r, andb_true_iff, cond_eq_spec, cond_gte_date by done.
  split.
  - intros [Hp (ms & Hc & Hle)]. exists ms. by rewrite event_time_spec.
  - intros (ms & [Hp Hc]%event_time_spec & Hle). eauto.
Qed.

Lemma window_lower_bound now :
  datetime_to_millis (now - timedelta_hours 24) = datetime_to_millis now - 24 * ms_per_hour.
Proof.
  unfold datetime_to_millis, timedelta_hours, ms_per_hour.
  replace (now - 24 * 3600000000) with (now + (- (24 * 3600000)) * 1000) by lia.
  rewrite Z.div_add by lia. lia.
Qed.

Lemma count_omap_filter {A} (f : A -> option Z) (p q : A -> bool) h (l : list A) :
  (forall x, x ∈ l -> q x = p x && bool_decide (f x = Some h)) ->
  length (List.filter (Z.eqb h) (omap f (List.filter p l))) = length (List.filter q l).
Proof.
  induction l as [|a l IH]; intros Hq; [done |].
  assert (IH' := IH (fun x Hx => Hq x (list_elem_of_further _ _ _ Hx))).
  cbn [List.filter]. rewrite (Hq a) by constructor.
  destruct (p a); simpl; [| done].
  destruct (f a) as [k|] eqn:Hf; simpl.
  - destruct (Z.eqb_spec h k) as [-> | Hne].
    + rewrite bool_decide_eq_true_2 by done. simpl. f_equal. exact IH'.
    + rewrite bool_decide_eq_false_2 by congruence. done.
  - exact IH'.
Qed.

(** The rows of the pipeline: one row per hour that holds at least one
    event of the window, with the number of these events. *)
Lemma hourly_pipeline_rows pid now docs h c :
  stamped_before now docs ->
  (h, c) ∈ hourly_pipeline pid (now - timedelta_hours 24) docs
  <-> h mod ms_per_hour = 0 /\ (0 < c)%nat
      /\ c = length (List.filter (in_bucket pid now h) docs).
Proof.
  intros Hst. unfold hourly_pipeline, stage_group_hour, stage_match.
  rewrite stage_sort_id_elem, tally_lookup.
  set (q := [("project_id", C_eq (VStr pid)); ("created_at", C_gte _)]).
  destruct (decide (h mod ms_per_hour = 0)) as [Hh | Hh].
  - rewrite (count_omap_filter created_hour (matches q) (in_bucket pid now h)).
    + destruct (length _); split; [discriminate | lia | intros [= <-]; lia | intros (_ & _ & ->); done].
    + intros d Hd. apply eq_true_iff_eq.
      rewrite andb_true_iff, bool_decide_eq_true. subst q.
      rewrite matches_window, window_lower_bound.
      unfold in_bucket, created_hour.
      destruct (event_time pid d) as [ms|] eqn:Het.
      * pose proof Het as [_ Hc]%event_time_spec. rewrite Hc.
        rewrite !andb_true_iff, !Z.leb_le, Z.ltb_lt.
        pose proof (Hst d ms Hd Hc). pose proof (dateTrunc_hour_spec ms h).
        split.
        -- intros [[[? ?] ?] ?]. split; [eauto |]. f_equal. tauto.
        -- intros [(ms' & [= <-] & ?) [= Heq]]. apply H0 in Heq. lia.
      * split; [discriminate | intros [(? & [=] & _) _]].
  - destruct (length (List.filter (Z.eqb h) _)) eqn:Hlen.
    + split; [discriminate | tauto].
    + exfalso. assert (Hin : h ∈ omap created_hour (List.filter (matches q) docs)).
      { destruct (List.filter (Z.eqb h) _) as [|k ks] eqn:Hf; [discriminate |].
        assert (Hk : List.In k (List.filter (Z.eqb h)
                       (omap created_hour (List.filter (matches q) docs)))).
        { rewrite Hf. by left. }
        apply List.filter_In in Hk as [Hk ->%Z.eqb_eq]. by apply list_elem_of_In. }
      apply list_elem_of_omap in Hin as (d & _ & Hd). unfold created_hour in Hd.
      destruct (doc_get d "created_at") as [[| | | | | | ms]|]; try discriminate.
      injection Hd as Hd. apply dateTrunc_hour_spec in Hd. tauto.
Qed.

Lemma hourly_pipeline_sorted pid since docs :
  StronglySorted (fun a b => fst a < fst b) (hourly_pipeline pid since docs).
Proof. apply stage_sort_id_sorted. Qed.

(** ** Ingestion: what is stored *)

Lemma create_document_stored {A} `{BaseModel A} w name (data : A) db :
  create_document w name data db
  = (str_oid (next_oid w),
     <[name := collection db name ++ [stored w data]]> db).
Proof. reflexivity. Qed.

(** Once the slug resolves to [p], the call stores the record built for
    [p] if the payload is acceptable, and fails with a validation error
    otherwise. *)
Lemma ingest_resolved w event x_forwarded_for user_agent db p :
  find_one [("slug", C_eq (VStr (IngestEvent.project_slug event)))]
           (collection db "project") = Some p ->
  ingest w event x_forwarded_for user_agent db
  = if acceptable event
    then (Ok {[ "id" := VStr (str_oid (next_oid w)) ]},
          <["apievent" := collection db "apievent"
                          ++ [stored w (ingest_record event p db x_forwarded_for user_agent)]]> db)
    else (Raise (ValidationError "Apievent"), db).
Proof.
  intros Hp. unfold ingest. rewrite Hp, truthy_doc_Some. cbn [negb].
  unfold Apievent.validate, Apievent.constraints. cbn [Apievent.method Apievent.status
    Apievent.latency_ms Apievent.request_size Apievent.response_size].
  fold (acceptable event). destruct (acceptable event); reflexivity.
Qed.

Lemma ingest_cases w event x_forwarded_for user_agent db :
  ingest w event x_forwarded_for user_agent db
  = match find_one [("slug", C_eq (VStr (IngestEvent.project_slug event)))]
                   (collection db "project") with
    | Some p =>
        if acceptable event
        then (Ok {[ "id" := VStr (str_oid (next_oid w)) ]},
              <["apievent" := collection db "apievent"
                  ++ [stored w (ingest_record event p db x_forwarded_for user_agent)]]> db)
        else (Raise (ValidationError "Apievent"), db)
    | None => (Raise (HTTPException 404 "Project not found"), db)
    end.
Proof.
  destruct (find_one _ _) as [p|] eqn:Hp.
  - by apply ingest_resolved.
  - unfold ingest. by rewrite Hp.
Qed.

Lemma ingest_Ok w event x_forwarded_for user_agent db r db' :
  ingest w event x_forwarded_for user_agent db = (Ok r, db') ->
  exists p,
    find_one [("slug", C_eq (VStr (IngestEvent.project_slug event)))]
             (collection db "project") = Some p
    /\ acceptable event = true
    /\ r = {[ "id" := VStr (str_oid (next_oid w)) ]}
    /\ db' = <["apievent" := collection db "apievent"
                 ++ [stored w (ingest_record event p db x_forwarded_for user_agent)]]> db.
Proof.
  intros Hi.
  destruct (find_one [("slug", C_eq (VStr (IngestEvent.project_slug event)))]
                     (collection db "project")) as [p|] eqn:Hp.
  - rewrite (ingest_resolved _ _ _ _ _ _ Hp) in Hi.
    destruct (acceptable event); [| discriminate].
    injection Hi as <- <-. by exists p.
  - unfold ingest in Hi. rewrite Hp in Hi. discriminate.
Qed.

Lemma collection_insert name l (db : database) :
  collection (<[name := l]> db) name = l.
Proof. unfold collection. by rewrite lookup_insert_eq. Qed.

Lemma collection_insert_ne name name' l (db : database) :
  name ≠ name' -> collection (<[name := l]> db) name' = collection db name'.
Proof. intros Hn. unfold collection. by rewrite lookup_insert_ne. Qed.

(** The fields of a stored event. *)
Lemma stored_event_fields w (e : Apievent.t) :
  doc_get (stored w e) "created_at" = Some (VDate (datetime_to_millis (utcnow w)))
  /\ doc_get (stored w e) "project_id" = Some (VStr (Apievent.project_id e))
  /\ doc_get (stored w e) "api_key_id" = Some (opt_str (Apievent.api_key_id e))
  /\ doc_get (stored w e) "status" = Some (VInt (Apievent.status e))
  /\ doc_get (stored w e) "latency_ms" = Some (VFloat (Apievent.latency_ms e))
  /\ doc_get (stored w e) "ip" = Some (opt_str (Apievent.ip e))
  /\ doc_get (stored w e) "user_agent" = Some (opt_str (Apievent.user_agent e)).
Proof. repeat split. Qed.

(** The record that the handler hands to the storage adapter has no
    ["created_at"] entry: the timestamp is not set by [ingest]. *)
Lemma ingest_record_no_timestamp (e : Apievent.t) :
  model_dump e !! "created_at" = None.
Proof. reflexivity. Qed.

Lemma project_stats_Ok w project_id db :
  ObjectId_is_valid project_id = true ->
  exists total errors avg_latency,
    project_stats w project_id db
    = Ok (Stats.Response total errors avg_latency
            (map (fun h => Stats.Point (isoformat (fst h)) (snd h))
                 (hourly_pipeline project_id (utcnow w - timedelta_hours 24)
                                  (collection db "apievent")))).
Proof.
  intros Hv. unfold project_stats, ObjectId_new. rewrite Hv. simpl. eauto.
Qed.

(** An event of the project that is not older than the lower bound of the
    window has its hour among the rows of the pipeline. *)
Lemma hourly_pipeline_sees pid since docs d ms :
  d ∈ docs -> event_time pid d = Some ms -> datetime_to_millis since <= ms ->
  exists c, (dateTrunc_hour ms, c) ∈ hourly_pipeline pid since docs /\ (0 < c)%nat.
Proof.
  intros Hd Het Hle. unfold hourly_pipeline, stage_group_hour, stage_match.
  set (q := [("project_id", C_eq (VStr pid)); ("created_at", C_gte _)]).
  set (keys := omap created_hour (List.filter (matches q) docs)).
  assert (Hin : dateTrunc_hour ms ∈ keys).
  { apply list_elem_of_omap. exists d. split.
    - apply list_elem_of_In, List.filter_In. split; [by apply list_elem_of_In |].
      apply matches_window. eauto.
    - apply event_time_spec in Het as [_ Hc]. unfold created_hour. by rewrite Hc. }
  destruct (length (List.filter (Z.eqb (dateTrunc_hour ms)) keys)) as [|n] eqn:Hlen.
  - apply length_zero_iff_nil in Hlen.
    assert (Hf : List.In (dateTrunc_hour ms) (List.filter (Z.eqb (dateTrunc_hour ms)) keys)).
    { apply List.filter_In. split; [by apply list_elem_of_In | apply Z.eqb_refl]. }
    rewrite Hlen in Hf. destruct Hf.
  - exists (S n). split; [| lia].
    apply stage_sort_id_elem. by rewrite tally_lookup, Hlen.
Qed.

(** C3: every accepted ingestion call appends one event document whose
    ["created_at"] is the server's clock at the time of the insert (the
    handler's record has no such entry; the storage adapter adds it), so a
    stats call made within the following 24 hours counts the event in the
    hour bucket of that time. *)
Theorem ingest_stamps_created_at w event x_forwarded_for user_agent db r db' :
  ingest w event x_forwarded_for user_agent db = (Ok r, db') ->
  exists d pid,
    collection db' "apievent" = collection db "apievent" ++ [d]
    /\ doc_get d "created_at" = Some (VDate (datetime_to_millis (utcnow w)))
    /\ doc_get d "project_id" = Some (VStr pid)
    /\ forall w',
         datetime_to_millis (utcnow w' - timedelta_hours 24) <= datetime_to_millis (utcnow w) ->
         ObjectId_is_valid pid = true ->
         exists s pt,
           project_stats w' pid db' = Ok s
           /\ pt ∈ Stats.hourly s
           /\ Stats.t pt = isoformat (dateTrunc_hour (datetime_to_millis (utcnow w)))
           /\ (0 < Stats.count pt)%nat.
Proof.
  intros Hi. apply ingest_Ok in Hi as (p & Hp & Hacc & -> & ->).
  set (e := ingest_record event p db x_forwarded_for user_agent).
  exists (stored w e), (str_oid (_id p)).
  rewrite collection_insert. repeat split.
  intros w' Hwin Hv.
  destruct (project_stats_Ok w' (str_oid (_id p))
              (<["apievent" := collection db "apievent" ++ [stored w e]]> db) Hv)
    as (total & errors & avg & ->).
  rewrite collection_insert.
  destruct (hourly_pipeline_sees (str_oid (_id p)) (utcnow w' - timedelta_hours 24)
              (collection db "apievent" ++ [stored w e]) (stored w e)
              (datetime_to_millis (utcnow w))) as (c & Hc & Hpos).
  - apply elem_of_app. right. constructor.
  - apply event_time_spec. repeat split.
  - exact Hwin.
  - eexists _, (Stats.Point _ c). split; [reflexivity |]. cbn [Stats.hourly Stats.t Stats.count].
    split; [| done].
    apply (list_elem_of_fmap_2 (fun h => Stats.Point (isoformat (fst h)) (snd h)) _ _ Hc).
Qed.

(** ** Ingestion: the key association *)

Lemma matches_active_key p k kd :
  matches [("key", C_eq (VStr k)); ("project_id", C_eq (VStr (str_oid (_id p))));
           ("active", C_eq (VBool true))] kd = true
  <-> active_key_of p k kd.
Proof.
  rewrite !matches_cons. change (matches [] kd) with true.
  rewrite andb_true_r, !andb_true_iff, !cond_eq_spec by done. reflexivity.
Qed.

Lemma ingest_api_key_id_Some event p db kid :
  ingest_api_key_id event p db = Some kid ->
  exists k kd, IngestEvent.api_key event = Some k /\ kd ∈ collection db "apikey"
               /\ active_key_of p k kd /\ kid = str_oid (_id kd).
Proof.
  unfold ingest_api_key_id.
  destruct (IngestEvent.api_key event) as [[|c k]|]; try discriminate.
  cbn [truthy_str opt_str].
  destruct (find_one _ _) as [kd|] eqn:Hf; [| discriminate].
  rewrite truthy_doc_Some. intros [= <-].
  apply find_one_Some in Hf as [Hin Hm]. apply matches_active_key in Hm.
  by exists (String c k), kd.
Qed.

Lemma ingest_api_key_id_None event p db :
  (forall k kd, IngestEvent.api_key event = Some k -> kd ∈ collection db "apikey" ->
                ~ active_key_of p k kd) ->
  ingest_api_key_id event p db = None.
Proof.
  intros Hno. destruct (ingest_api_key_id event p db) as [kid|] eqn:Hk; [| done].
  apply ingest_api_key_id_Some in Hk as (k & kd & Hk & Hin & Hact & _).
  destruct (Hno k kd Hk Hin Hact).
Qed.

(** C5: once the slug resolves to a project and the payload is acceptable,
    the event is stored whatever key is submitted.  If the submitted key is
    not the value of an active key of the resolved project (for instance
    because it belongs to another project) the stored ["api_key_id"] is
    null; and it is not null only when the submitted key is the value of
    an active key of the resolved project, whose id it then is. *)
Theorem ingest_key_association w event x_forwarded_for user_agent db p :
  find_one [("slug", C_eq (VStr (IngestEvent.project_slug event)))]
           (collection db "project") = Some p ->
  acceptable event = true ->
  exists r db' d,
    ingest w event x_forwarded_for user_agent db = (Ok r, db')
    /\ collection db' "apievent" = collection db "apievent" ++ [d]
    /\ ((forall k kd, IngestEvent.api_key event = Some k -> kd ∈ collection db "apikey" ->
                      ~ active_key_of p k kd) ->
        doc_get d "api_key_id" = Some VNone)
    /\ (forall v, doc_get d "api_key_id" = Some v -> v ≠ VNone ->
          exists k kd, IngestEvent.api_key event = Some k
                       /\ kd ∈ collection db "apikey"
                       /\ active_key_of p k kd
                       /\ v = VStr (str_oid (_id kd))).
Proof.
  intros Hp Hacc. rewrite (ingest_resolved _ _ _ _ _ _ Hp), Hacc.
  set (e := ingest_record event p db x_forwarded_for user_agent).
  eexists _, _, (stored w e). split; [reflexivity |].
  rewrite collection_insert. split; [reflexivity |].
  destruct (stored_event_fields w e) as (_ & _ & Hk & _). rewrite Hk.
  subst e. cbn [ingest_record Apievent.api_key_id]. split.
  - intros Hno. by rewrite ingest_api_key_id_None.
  - intros v [= <-] Hv.
    destruct (ingest_api_key_id event p db) as [kid|] eqn:Hkid; [| done].
    apply ingest_api_key_id_Some in Hkid as (k & kd & ? & ? & ? & ->). eauto 10.
Qed.

Lemma ingest_stamps_created_at_witness :
  exists d,
    collection (snd (ingest Sample.w0 (Sample.event "shop" None None None) None None Sample.db0))
               "apievent" = [d]
    /\ doc_get d "created_at" = Some (VDate 1700000000123).
Proof.
  destruct (ingest_stamps_created_at Sample.w0 (Sample.event "shop" None None None) None None
              Sample.db0 Sample.created
              (snd (ingest Sample.w0 (Sample.event "shop" None None None) None None Sample.db0)))
    as (d & pid & Hc & Ht & _).
  - vm_compute. reflexivity.
  - exists d. split; [exact Hc | exact Ht].
Defined.

Lemma ingest_key_association_witness :
  exists d,
    collection (snd (ingest Sample.w0 (Sample.event "shop" (Some "blog-token") None None)
                            None None Sample.db0)) "apievent" = [d]
    /\ doc_get d "api_key_id" = Some VNone.
Proof.
  destruct (ingest_key_association Sample.w0 (Sample.event "shop" (Some "blog-token") None None)
              None None Sample.db0 Sample.shop)
    as (r & db' & d & Hi & Hc & Hnull & _).
  - vm_compute. reflexivity.
  - vm_compute. reflexivity.
  - exists d. rewrite Hi. split; [exact Hc |].
    apply Hnull. intros k kd [= <-] Hkd (_ & Hpid & _).
    elem_cases Hkd. vm_compute in Hpid. discriminate.
Defined.

(** ** Ingestion: the client address and the user agent *)

Lemma split_comma_nonempty h : split_comma h ≠ [].
Proof.
  destruct h as [|c h]; simpl; [discriminate |].
  destruct (Ascii.eqb c ","%char); [discriminate |].
  destruct (split_comma h); discriminate.
Qed.

Lemma hd_split_comma h : hd "" (split_comma h) = first_entry h.
Proof.
  induction h as [|c h IH]; simpl; [done |].
  destruct (Ascii.eqb c ","%char); [done |].
  pose proof (split_comma_nonempty h).
  destruct (split_comma h) as [|e es]; [done |]. simpl in *. by rewrite IH.
Qed.

Lemma ingest_ip_spec event x_forwarded_for :
  ingest_ip event x_forwarded_for = resolved_ip (IngestEvent.ip event) x_forwarded_for.
Proof.
  unfold ingest_ip, resolved_ip, py_or.
  destruct (IngestEvent.ip event) as [[|c s]|]; cbn [truthy_str]; try done;
    destruct x_forwarded_for as [[|c' h]|]; cbn [truthy_str]; try done;
    by rewrite hd_split_comma.
Qed.

(** C9 (as the code behaves): the stored [ip] of an accepted event is the
    explicit [ip] field when it is supplied and not empty, else the first
    comma-separated entry of the forwarded-for header, trimmed, when the
    header is supplied and not empty, else null.  In particular a
    non-empty explicit field wins over the header, and leaving out both
    gives null. *)
Theorem ingest_ip_resolution w event x_forwarded_for user_agent db r db' :
  ingest w event x_forwarded_for user_agent db = (Ok r, db') ->
  exists d,
    collection db' "apievent" = collection db "apievent" ++ [d]
    /\ doc_get d "ip" = Some (opt_str (resolved_ip (IngestEvent.ip event) x_forwarded_for))
    /\ (forall s, IngestEvent.ip event = Some s -> s ≠ "" -> doc_get d "ip" = Some (VStr s))
    /\ (forall h, absent_if_empty (IngestEvent.ip event) = None ->
                  x_forwarded_for = Some h -> h ≠ "" ->
                  doc_get d "ip" = Some (VStr (strip (first_entry h))))
    /\ (absent_if_empty (IngestEvent.ip event) = None ->
        absent_if_empty x_forwarded_for = None ->
        doc_get d "ip" = Some VNone).
Proof.
  intros Hi. apply ingest_Ok in Hi as (p & Hp & Hacc & -> & ->).
  set (e := ingest_record event p db x_forwarded_for user_agent).
  exists (stored w e). rewrite collection_insert. split; [reflexivity |].
  destruct (stored_event_fields w e) as (_ & _ & _ & _ & _ & Hip & _). rewrite Hip.
  subst e. cbn [ingest_record Apievent.ip]. rewrite ingest_ip_spec.
  split; [reflexivity |]. repeat split.
  - intros s -> Hs. by destruct s.
  - intros h Hno -> Hh.
    destruct (IngestEvent.ip event) as [[|c s]|]; try discriminate; by destruct h.
  - intros Hno Hx.
    destruct (IngestEvent.ip event) as [[|c s]|]; try discriminate;
      by destruct x_forwarded_for as [[|c' h]|].
Qed.

Lemma ingest_ip_resolution_witness :
  exists d,
    collection (snd (ingest Sample.w0 (Sample.event "shop" None (Some "198.51.100.4") None)
                            (Some "203.0.113.7, 10.0.0.1") None Sample.db0)) "apievent" = [d]
    /\ doc_get d "ip" = Some (VStr "198.51.100.4").
Proof.
  destruct (ingest_ip_resolution Sample.w0 (Sample.event "shop" None (Some "198.51.100.4") None)
              (Some "203.0.113.7, 10.0.0.1") None Sample.db0 Sample.created
              (snd (ingest Sample.w0 (Sample.event "shop" None (Some "198.51.100.4") None)
                           (Some "203.0.113.7, 10.0.0.1") None Sample.db0)))
    as (d & Hc & _ & Hip & _).
  - vm_compute. reflexivity.
  - exists d. split; [exact Hc |]. by apply Hip.
Defined.

(** C9 (the claim as stated fails): an explicit [ip] field that is
    supplied as the empty string is not what gets stored; the entry of the
    forwarded-for header is. *)
Lemma ingest_empty_ip_uses_header :
  IngestEvent.ip (Sample.event "shop" None (Some "") None) = Some ""
  /\ fst (ingest Sample.w0 (Sample.event "shop" None (Some "") None)
                 (Some "203.0.113.7, 10.0.0.1") None Sample.db0) = Ok Sample.created
  /\ (fun d => doc_get d "ip")
       <$> collection (snd (ingest Sample.w0 (Sample.event "shop" None (Some "") None)
                                   (Some "203.0.113.7, 10.0.0.1") None Sample.db0)) "apievent"
     = [Some (VStr "203.0.113.7")].
Proof. repeat split; vm_compute; reflexivity. Qed.

Lemma without_empty_record event p db x_forwarded_for user_agent :
  ingest_record (without_empty event) p db x_forwarded_for user_agent
  = ingest_record event p db x_forwarded_for user_agent.
Proof.
  destruct event as [slug key m pa st la ip ua rs ps em].
  unfold ingest_record, ingest_ip, ingest_ua, ingest_api_key_id, without_empty, py_or.
  cbn [IngestEvent.ip IngestEvent.user_agent IngestEvent.api_key IngestEvent.method
       IngestEvent.path IngestEvent.status IngestEvent.latency_ms IngestEvent.request_size
       IngestEvent.response_size IngestEvent.error_message IngestEvent.project_slug].
  destruct ip as [[|]|], ua as [[|]|]; reflexivity.
Qed.

(** C10 (as the code behaves): an [ip] or [user_agent] field that is
    present but empty is treated as absent: the call does exactly what it
    does without the field, so the fallback (header, else null) is what is
    stored.  The stored value is then the empty string only when the
    fallback itself is empty: a forwarded-for header whose first entry is
    blank, or an empty user-agent header. *)
Theorem ingest_empty_as_absent w event x_forwarded_for user_agent db :
  ingest w event x_forwarded_for user_agent db
  = ingest w (without_empty event) x_forwarded_for user_agent db
  /\ forall r db',
       ingest w event x_forwarded_for user_agent db = (Ok r, db') ->
       exists d,
         collection db' "apievent" = collection db "apievent" ++ [d]
         /\ (IngestEvent.ip event = Some "" ->
             doc_get d "ip" = Some (opt_str (resolved_ip None x_forwarded_for))
             /\ (doc_get d "ip" = Some (VStr "") ->
                 exists h, x_forwarded_for = Some h /\ h ≠ "" /\ strip (first_entry h) = ""))
         /\ (IngestEvent.user_agent event = Some "" ->
             doc_get d "user_agent" = Some (opt_str user_agent)
             /\ (doc_get d "user_agent" = Some (VStr "") -> user_agent = Some "")).
Proof.
  split.
  - rewrite !ingest_cases. cbn [without_empty IngestEvent.project_slug].
    destruct (find_one _ _) as [p|]; [| reflexivity].
    by rewrite <- (without_empty_record event p db x_forwarded_for user_agent).
  - intros r db' Hi. apply ingest_Ok in Hi as (p & Hp & Hacc & -> & ->).
    set (e := ingest_record event p db x_forwarded_for user_agent).
    exists (stored w e). rewrite collection_insert. split; [reflexivity |].
    destruct (stored_event_fields w e) as (_ & _ & _ & _ & _ & Hip & Hua).
    rewrite Hip, Hua. subst e. cbn [ingest_record Apievent.ip Apievent.user_agent].
    rewrite ingest_ip_spec. unfold ingest_ua, py_or. split.
    + intros ->. split; [reflexivity |]. cbn [resolved_ip].
      destruct x_forwarded_for as [[|c h]|]; cbn [opt_str]; try discriminate.
      intros [= Hs]. exists (String c h). split; [done |]. split; [done | exact Hs].
    + intros ->. cbn [truthy_str]. split; [reflexivity |].
      destruct user_agent as [ua|]; cbn [opt_str]; [| discriminate].
      by intros [= ->].
Qed.

Lemma ingest_empty_as_absent_witness :
  exists d,
    collection (snd (ingest Sample.w0 (Sample.event "shop" None (Some "") (Some ""))
                            (Some "203.0.113.7 , 10.0.0.1") (Some "curl/8") Sample.db0))
               "apievent" = [d]
    /\ doc_get d "ip" = Some (VStr "203.0.113.7")
    /\ doc_get d "user_agent" = Some (VStr "curl/8").
Proof.
  destruct (proj2 (ingest_empty_as_absent Sample.w0 (Sample.event "shop" None (Some "") (Some ""))
                     (Some "203.0.113.7 , 10.0.0.1") (Some "curl/8") Sample.db0)
              Sample.created
              (snd (ingest Sample.w0 (Sample.event "shop" None (Some "") (Some ""))
                           (Some "203.0.113.7 , 10.0.0.1") (Some "curl/8") Sample.db0)))
    as (d & Hc & Hip & Hua).
  - vm_compute. reflexivity.
  - exists d. split; [exact Hc |].
    split; [exact (proj1 (Hip eq_refl)) | exact (proj1 (Hua eq_refl))].
Defined.

(** C10 (the claim as stated fails): with an empty [ip] in the payload and
    a forwarded-for header that starts with a comma, the stored [ip] is the
    empty string. *)
Lemma ingest_stores_empty_ip :
  IngestEvent.ip (Sample.event "shop" None (Some "") None) = Some ""
  /\ fst (ingest Sample.w0 (Sample.event "shop" None (Some "") None)
                 (Some ", 10.0.0.1") None Sample.db0) = Ok Sample.created
  /\ (fun d => doc_get d "ip")
       <$> collection (snd (ingest Sample.w0 (Sample.event "shop" None (Some "") None)
                                   (Some ", 10.0.0.1") None Sample.db0)) "apievent"
     = [Some (VStr "")].
Proof. repeat split; vm_compute; reflexivity. Qed.

(** ** Totals, errors and average latency *)

Section totals.
Variable pid : string.
Variable recs : list (world * Apievent.t).

Lemma matches_stored_project w e :
  matches [("project_id", C_eq (VStr pid))] (stored w e) = carries pid (w, e).
Proof.
  apply eq_true_iff_eq. unfold carries. cbn [snd]. rewrite matches_str, String.eqb_eq.
  destruct (stored_event_fields w e) as (_ & -> & _). split; congruence.
Qed.


Lemma filter_stored (q : query) (f : world * Apievent.t -> bool) (l : list (world * Apievent.t)) :
  (forall we, matches q (stored (fst we) (snd we)) = f we) ->
  List.filter (matches q) (stored_all l) = stored_all (List.filter f l).
Proof.
  intros Hq. unfold stored_all. induction l as [|we l IH]; [done |].
  rewrite fmap_cons. cbn [List.filter]. rewrite Hq.
  destruct (f we); rewrite IH; done.
Qed.

Lemma stage_match_stored :
  stage_match [("project_id", C_eq (VStr pid))] (stored_all recs)
  = stored_all (List.filter (carries pid) recs).
Proof.
  unfold stage_match. apply filter_stored. intros [w e]. apply matches_stored_project.
Qed.

Lemma total_of_stored :
  count_documents [("project_id", C_eq (VStr pid))] (stored_all recs)
  = length (events_of pid recs).
Proof.
  unfold count_documents, events_of.
  change (List.filter (matches ?q) ?l) with (stage_match q l).
  rewrite stage_match_stored. unfold stored_all. by rewrite !length_fmap.
Qed.


Lemma latencies_of_stored :
  omap (numeric_field "latency_ms")
       (stage_match [("project_id", C_eq (VStr pid))] (stored_all recs))
  = Apievent.latency_ms <$> events_of pid recs.
Proof.
  rewrite stage_match_stored. unfold events_of, stored_all.
  generalize (List.filter (carries pid) recs). intros l.
  induction l as [|we l IH]; [reflexivity |].
  rewrite !fmap_cons. cbn [omap list_omap]. unfold numeric_field at 1.
  destruct (stored_event_fields (fst we) (snd we)) as (_ & _ & _ & _ & -> & _).
  cbn [mbind option_bind as_number]. f_equal. exact IH.
Qed.

Lemma stage_match_stored_nil :
  stage_match [("project_id", C_eq (VStr pid))] (stored_all recs) = [] ->
  events_of pid recs = [].
Proof.
  rewrite stage_match_stored. unfold events_of, stored_all.
  by intros ->%fmap_nil_inv.
Qed.
End totals.






(** ** The hourly series *)

(** C8: when no stored event is stamped later than the call time, the
    hourly series of a stats call lists, in strictly ascending order of
    bucket start, exactly the hours that hold at least one event of the
    project created in the 24 hours before the call, each with the number
    of these events whose creation time, truncated to the hour, is the
    bucket start; hours without events do not appear. *)
Theorem project_stats_hourly w project_id db :
  ObjectId_is_valid project_id = true ->
  stamped_before (utcnow w) (collection db "apievent") ->
  exists s rows,
    project_stats w project_id db = Ok s
    /\ Stats.hourly s = (fun row => Stats.Point (isoformat (fst row)) (snd row)) <$> rows
    /\ StronglySorted (fun a b => fst a < fst b) rows
    /\ (forall h c,
          (h, c) ∈ rows <->
          h mod ms_per_hour = 0 /\ (0 < c)%nat
          /\ c = length (List.filter (in_bucket project_id (utcnow w) h)
                                     (collection db "apievent")))
    /\ (forall d ms,
          d ∈ collection db "apievent" -> event_time project_id d = Some ms ->
          datetime_to_millis (utcnow w) - 24 * ms_per_hour <= ms ->
          exists c, (dateTrunc_hour ms, c) ∈ rows).
Proof.
  intros Hv Hst.
  destruct (project_stats_Ok w project_id db Hv) as (total & errors & avg & ->).
  eexists _, _. split; [reflexivity |]. split; [reflexivity |].
  split; [apply hourly_pipeline_sorted |]. split.
  - intros h c. by apply hourly_pipeline_rows.
  - intros d ms Hd Het Hle.
    destruct (hourly_pipeline_sees project_id (utcnow w - timedelta_hours 24)
                (collection db "apievent") d ms Hd Het) as (c & Hc & _).
    + by rewrite window_lower_bound.
    + eauto.
Qed.

(** The side condition is an invariant of the service under a clock that
    does not run backwards: documents stored from records carry the time
    of their insert, and an ingestion call adds one such document. *)
Lemma stamped_before_stored now (recs : list (world * Apievent.t)) :
  Forall (fun we => utcnow (fst we) <= now) recs ->
  stamped_before now (stored_all recs).
Proof.
  intros Hall d ms Hd Hc. unfold stored_all in Hd.
  apply list_elem_of_fmap in Hd as ([w e] & -> & Hwe).
  rewrite Forall_forall in Hall. specialize (Hall _ Hwe). cbn [fst snd] in *.
  destruct (stored_event_fields w e) as (Ht & _). rewrite Ht in Hc. injection Hc as <-.
  unfold datetime_to_millis. apply Z.div_le_mono; lia.
Qed.

Lemma stamped_before_ingest now w event x_forwarded_for user_agent db :
  stamped_before now (collection db "apievent") ->
  utcnow w <= now ->
  stamped_before now (collection (snd (ingest w event x_forwarded_for user_agent db)) "apievent").
Proof.
  intros Hst Hw. rewrite ingest_cases.
  destruct (find_one _ _) as [p|]; [| exact Hst].
  destruct (acceptable event); [| exact Hst].
  cbn [snd]. rewrite collection_insert. intros d ms Hd Hc.
  apply elem_of_app in Hd as [Hd | Hd]; [by apply (Hst d) |].
  apply list_elem_of_singleton in Hd as ->.
  destruct (stored_event_fields w (ingest_record event p db x_forwarded_for user_agent))
    as (Ht & _).
  rewrite Ht in Hc. injection Hc as <-.
  unfold datetime_to_millis. apply Z.div_le_mono; lia.
Qed.

Lemma project_stats_hourly_witness :
  exists s,
    project_stats Sample.w1 Sample.blog_id Sample.db1 = Ok s
    /\ Stats.hourly s = [ Stats.Point "2023-11-14T20:00:00" 2;
                          Stats.Point "2023-11-14T23:00:00" 1 ].
Proof.
  destruct (project_stats_hourly Sample.w1 Sample.blog_id Sample.db1)
    as (s & rows & Hs & _).
  - reflexivity.
  - apply (stamped_before_stored (utcnow Sample.w1) Sample.history).
    repeat constructor; vm_compute; discriminate.
  - exists s. split; [exact Hs |].
    vm_compute in Hs. injection Hs as <-. reflexivity.
Defined.

(** ** The side conditions hold in every reachable database *)

Lemma Forall_before now now' (recs : list (world * Apievent.t)) :
  now <= now' ->
  Forall (fun we => utcnow (fst we) <= now) recs ->
  Forall (fun we => utcnow (fst we) <= now') recs.
Proof. intros Hle Hall. apply (Forall_impl _ _ _ Hall). intros we Hwe. lia. Qed.

Lemma create_key_events w payload db :
  collection (snd (create_key w payload db)) "apievent" = collection db "apievent".
Proof.
  unfold create_key. destruct (try_except _ _) as [[]|e]; [| reflexivity].
  rewrite create_document_stored. cbn [snd]. by rewrite collection_insert_ne.
Qed.

Lemma create_project_events w payload db :
  collection (snd (create_project w payload db)) "apievent" = collection db "apievent".
Proof.
  unfold create_project. rewrite create_document_stored. cbn [snd].
  by rewrite collection_insert_ne.
Qed.

(** The event collection of a reachable database consists of documents
    stored from event records, none stamped later than the clock shows. *)
Lemma reachable_events now db :
  reachable now db ->
  exists recs, collection db "apievent" = stored_all recs
               /\ Forall (fun we => utcnow (fst we) <= now) recs.
Proof.
  induction 1 as [now | now now' db _ (recs & Hc & Hall) Hle
                  | now db w c _ (recs & Hc & Hall) Hle].
  - exists []. split; [reflexivity | constructor].
  - exists recs. split; [exact Hc | by apply (Forall_before now)].
  - apply (Forall_before now (utcnow w) recs Hle) in Hall.
    destruct c as [payload | payload | event xff ua]; cbn [handle].
    + exists recs. by rewrite create_project_events.
    + exists recs. by rewrite create_key_events.
    + rewrite ingest_cases. destruct (find_one _ _) as [p|]; [| by exists recs].
      destruct (acceptable event); [| by exists recs].
      exists (recs ++ [(w, ingest_record event p db xff ua)]). cbn [snd].
      rewrite collection_insert, Hc. unfold stored_all. rewrite fmap_app. split; [reflexivity |].
      apply Forall_app. split; [exact Hall |]. constructor; [cbn [fst]; lia | constructor].
Qed.

Lemma reachable_stamped_before now db :
  reachable now db -> stamped_before now (collection db "apievent").
Proof.
  intros (recs & -> & Hall)%reachable_events. by apply stamped_before_stored.
Qed.

(** * Further properties of the handlers *)

(** ** Issuing keys: outcomes *)

Lemma create_key_cases w payload db :
  create_key w payload db
  = match ObjectId_new (CreateApiKey.project_id payload) with
    | Ok oid =>
        match find_one [("_id", C_eq (VOid oid))] (collection db "project") with
        | Some _ =>
            (Ok {[ "id" := VStr (str_oid (next_oid w)); "key" := VStr (token_urlsafe w) ]},
             <["apikey" := collection db "apikey"
                 ++ [stored w (Apikey.new (CreateApiKey.project_id payload)
                                          (CreateApiKey.name payload) (token_urlsafe w) true)]]> db)
        | None => (Raise (HTTPException 400 "Invalid project id"), db)
        end
    | Raise _ => (Raise (HTTPException 400 "Invalid project id"), db)
    end.
Proof.
  unfold create_key. destruct (ObjectId_new _) as [oid|e]; [| reflexivity].
  cbn [mbind result_bind].
  destruct (find_one _ _) as [p|]; [| reflexivity].
  rewrite truthy_doc_Some. reflexivity.
Qed.

Lemma find_one_exists q coll d :
  d ∈ coll -> matches q d = true -> exists d', find_one q coll = Some d'.
Proof.
  intros Hin Hm. destruct (find_one q coll) as [d'|] eqn:Hf; [eauto |].
  unfold find_one in Hf. apply list_elem_of_In in Hin.
  pose proof (List.find_none _ _ Hf _ Hin). congruence.
Qed.

(** X1: every failure of key creation is a 400 "Invalid project id", whether
    the identifier is malformed or the project is missing, and a failed
    call stores nothing. *)
Theorem create_key_failure w payload db e db' :
  create_key w payload db = (Raise e, db') ->
  e = HTTPException 400 "Invalid project id" /\ db' = db.
Proof.
  rewrite create_key_cases.
  destruct (ObjectId_new _) as [oid|e0]; [destruct (find_one _ _) |];
    intros [= <- <-]; done.
Qed.

(** X2: key creation succeeds exactly for the identifiers that parse to the
    [_id] of a stored project: a successful call implies such a project,
    and such a project makes the call succeed. *)
Theorem create_key_needs_project w payload db :
  (exists r db', create_key w payload db = (Ok r, db'))
  <-> exists oid p, ObjectId_new (CreateApiKey.project_id payload) = Ok oid
                    /\ p ∈ collection db "project" /\ _id p = oid.
Proof.
  rewrite create_key_cases. split.
  - intros (r & db' & Hc). destruct (ObjectId_new _) as [oid|e]; [| discriminate].
    destruct (find_one _ _) as [p|] eqn:Hf; [| discriminate].
    apply find_one_Some in Hf as [Hin Hm]. apply matches_id in Hm. by exists oid, p.
  - intros (oid & p & -> & Hin & Hid).
    destruct (find_one_exists [("_id", C_eq (VOid oid))] _ p Hin) as [p' ->];
      [by apply matches_id | eauto].
Qed.

(** X3: a successful key creation returns the generated id and the token, and
    appends exactly one key document: it carries the project id as it was
    submitted, the label, the token as [key], and [active] set; the other
    collections are left as they were. *)
Theorem create_key_success w payload db p :
  p ∈ collection db "project" ->
  ObjectId_new (CreateApiKey.project_id payload) = Ok (_id p) ->
  exists d db',
    create_key w payload db
    = (Ok {[ "id" := VStr (str_oid (_id d)); "key" := VStr (token_urlsafe w) ]}, db')
    /\ collection db' "apikey" = collection db "apikey" ++ [d]
    /\ (forall name, name ≠ "apikey" -> collection db' name = collection db name)
    /\ doc_get d "project_id" = Some (VStr (CreateApiKey.project_id payload))
    /\ doc_get d "name" = Some (VStr (CreateApiKey.name payload))
    /\ doc_get d "key" = Some (VStr (token_urlsafe w))
    /\ doc_get d "active" = Some (VBool true).
Proof.
  intros Hin Hoid. rewrite create_key_cases, Hoid.
  destruct (find_one_exists [("_id", C_eq (VOid (_id p)))] _ p Hin) as [p' ->];
    [by apply matches_id |].
  exists (stored w (Apikey.new (CreateApiKey.project_id payload)
                               (CreateApiKey.name payload) (token_urlsafe w) true)).
  eexists. split; [reflexivity |]. rewrite collection_insert.
  split; [reflexivity |]. split; [| repeat split].
  intros name Hn. by apply collection_insert_ne.
Qed.

(** ** Ingestion: outcomes *)

Lemma ge0_spec o : Apievent.ge0 o = true <-> forall n, o = Some n -> 0 <= n.
Proof.
  destruct o as [m|]; simpl.
  - rewrite Z.leb_le. split; [by intros ? ? [= <-] | eauto].
  - split; [discriminate | done].
Qed.

Lemma acceptable_spec event : acceptable event = true <-> meets_schema event.
Proof.
  unfold acceptable, Apievent.field_constraints, meets_schema.
  rewrite !andb_true_iff, bool_decide_eq_true, !Z.leb_le, Qle_bool_iff, !ge0_spec.
  tauto.
Qed.

Lemma slug_resolves event db :
  (exists p, find_one [("slug", C_eq (VStr (IngestEvent.project_slug event)))]
                      (collection db "project") = Some p)
  <-> exists p, p ∈ collection db "project"
                /\ doc_get p "slug" = Some (VStr (IngestEvent.project_slug event)).
Proof.
  split.
  - intros (p & [Hin Hm]%find_one_Some). apply matches_str in Hm. eauto.
  - intros (p & Hin & Hs). apply (find_one_exists _ _ p Hin). by apply matches_str.
Qed.

(** X5: ingestion succeeds only when some stored project has the submitted
    slug and the payload meets the constraints of the event schema (one of
    the seven methods, status in 100..599, latency and sizes not
    negative). *)
Theorem ingest_success_requires w event x_forwarded_for user_agent db r db' :
  ingest w event x_forwarded_for user_agent db = (Ok r, db') ->
  (exists p, p ∈ collection db "project"
             /\ doc_get p "slug" = Some (VStr (IngestEvent.project_slug event)))
  /\ meets_schema event.
Proof.
  rewrite <- slug_resolves, <- acceptable_spec, ingest_cases.
  destruct (find_one _ _) as [p|]; [| discriminate].
  destruct (acceptable event); [eauto | discriminate].
Qed.

(** X6: the two rejections of the ingestion handler.  It answers 404
    "Project not found" exactly when no stored project has the slug, and it
    raises the validation error of the event schema exactly when the slug
    resolves and the payload violates the constraints of that schema (the
    request model itself does not constrain method, status, latency or
    sizes).  A call that fails, with whatever exception, stores nothing. *)
Theorem ingest_rejections w event x_forwarded_for user_agent db :
  (fst (ingest w event x_forwarded_for user_agent db)
   = Raise (HTTPException 404 "Project not found")
   <-> forall p, p ∈ collection db "project" ->
                 doc_get p "slug" ≠ Some (VStr (IngestEvent.project_slug event)))
  /\ (fst (ingest w event x_forwarded_for user_agent db) = Raise (ValidationError "Apievent")
      <-> (exists p, p ∈ collection db "project"
                     /\ doc_get p "slug" = Some (VStr (IngestEvent.project_slug event)))
          /\ ~ meets_schema event)
  /\ (forall e, fst (ingest w event x_forwarded_for user_agent db) = Raise e ->
                snd (ingest w event x_forwarded_for user_agent db) = db).
Proof.
  rewrite <- slug_resolves, <- acceptable_spec, ingest_cases.
  assert (Hnone : (forall p, p ∈ collection db "project" ->
                     doc_get p "slug" ≠ Some (VStr (IngestEvent.project_slug event)))
                  <-> find_one [("slug", C_eq (VStr (IngestEvent.project_slug event)))]
                               (collection db "project") = None).
  { split.
    - intros Hno. destruct (find_one _ _) as [p|] eqn:Hf; [| done].
      destruct (proj1 (slug_resolves event db)) as (p' & Hin & Hs); [eauto |].
      by destruct (Hno p' Hin).
    - intros Hf p Hin Hs.
      destruct (proj2 (slug_resolves event db)) as [p' Hp']; [eauto |]. congruence. }
  rewrite Hnone.
  destruct (find_one _ _) as [p|].
  - destruct (acceptable event); cbn [fst snd].
    + split; [split; discriminate |]. split; [| discriminate].
      split; [discriminate |]. intros [_ Hacc]. by destruct Hacc.
    + split; [split; discriminate |]. split; [| done].
      split; [| done]. intros _. split; [eauto | discriminate].
  - cbn [fst snd]. split; [done |]. split; [| done].
    split; [discriminate |]. intros [[p' Hp'] _]. discriminate.
Qed.

(** ** Ingestion: which project and which key *)

Lemma find_one_first q l1 d l2 :
  (forall x, x ∈ l1 -> matches q x = false) -> matches q d = true ->
  find_one q (l1 ++ d :: l2) = Some d.
Proof.
  intros Hl Hd. unfold find_one. induction l1 as [|a l1 IH]; simpl.
  - by rewrite Hd.
  - rewrite (Hl a) by constructor. apply IH. intros x Hx. apply Hl. by constructor.
Qed.

(** X7: slugs need not be unique; an event is attached to the first stored
    project, in store order, whose slug is the submitted one, whatever
    follows it. *)
Theorem ingest_first_project w event x_forwarded_for user_agent db l1 p l2 :
  collection db "project" = l1 ++ p :: l2 ->
  (forall x, x ∈ l1 -> doc_get x "slug" ≠ Some (VStr (IngestEvent.project_slug event))) ->
  doc_get p "slug" = Some (VStr (IngestEvent.project_slug event)) ->
  meets_schema event ->
  exists r db' d,
    ingest w event x_forwarded_for user_agent db = (Ok r, db')
    /\ collection db' "apievent" = collection db "apievent" ++ [d]
    /\ doc_get d "project_id" = Some (VStr (str_oid (_id p))).
Proof.
  intros Hc Hl Hp Hacc%acceptable_spec. rewrite ingest_cases, Hc.
  rewrite (find_one_first _ l1 p l2), Hacc.
  - eexists _, _, _. split; [reflexivity |]. rewrite collection_insert.
    split; [reflexivity |]. reflexivity.
  - intros x Hx. apply not_true_is_false. rewrite matches_str. by apply Hl.
  - by apply matches_str.
Qed.

(** X8: a submitted key that is not empty is associated with the first stored
    key document, in store order, that is an active key of the resolved
    project with this value: its id becomes the event's [api_key_id]. *)
Theorem ingest_first_key w event x_forwarded_for user_agent db p k l1 kd l2 :
  find_one [("slug", C_eq (VStr (IngestEvent.project_slug event)))]
           (collection db "project") = Some p ->
  meets_schema event ->
  IngestEvent.api_key event = Some k -> k ≠ "" ->
  collection db "apikey" = l1 ++ kd :: l2 ->
  (forall x, x ∈ l1 -> ~ active_key_of p k x) ->
  active_key_of p k kd ->
  exists r db' d,
    ingest w event x_forwarded_for user_agent db = (Ok r, db')
    /\ collection db' "apievent" = collection db "apievent" ++ [d]
    /\ doc_get d "api_key_id" = Some (VStr (str_oid (_id kd))).
Proof.
  intros Hp Hacc%acceptable_spec Hk Hne Hc Hl Hkd.
  rewrite (ingest_resolved _ _ _ _ _ _ Hp), Hacc.
  eexists _, _, _. split; [reflexivity |]. rewrite collection_insert.
  split; [reflexivity |].
  destruct (stored_event_fields w (ingest_record event p db x_forwarded_for user_agent))
    as (_ & _ & -> & _).
  cbn [ingest_record Apievent.api_key_id]. unfold ingest_api_key_id.
  rewrite Hk, Hc. destruct k as [|c k]; [done |]. cbn [truthy_str opt_str].
  rewrite (find_one_first _ l1 kd l2), truthy_doc_Some; [reflexivity | |].
  - intros x Hx. apply not_true_is_false. rewrite matches_active_key. by apply Hl.
  - by apply matches_active_key.
Qed.

(** ** Ingestion: what the stored event holds *)

(** X9: a successful ingestion appends exactly one event and touches no other
    collection; the response carries the id of that event; method, path,
    status, latency, sizes and error message are stored as submitted. *)
Theorem ingest_stores_payload w event x_forwarded_for user_agent db r db' :
  ingest w event x_forwarded_for user_agent db = (Ok r, db') ->
  exists d,
    collection db' "apievent" = collection db "apievent" ++ [d]
    /\ (forall name, name ≠ "apievent" -> collection db' name = collection db name)
    /\ r = {[ "id" := VStr (str_oid (_id d)) ]}
    /\ doc_get d "method" = Some (VStr (IngestEvent.method event))
    /\ doc_get d "path" = Some (VStr (IngestEvent.path event))
    /\ doc_get d "status" = Some (VInt (IngestEvent.status event))
    /\ doc_get d "latency_ms" = Some (VFloat (IngestEvent.latency_ms event))
    /\ doc_get d "request_size" = Some (opt_int (IngestEvent.request_size event))
    /\ doc_get d "response_size" = Some (opt_int (IngestEvent.response_size event))
    /\ doc_get d "error_message" = Some (opt_str (IngestEvent.error_message event)).
Proof.
  intros (p & Hp & Hacc & -> & ->)%ingest_Ok.
  exists (stored w (ingest_record event p db x_forwarded_for user_agent)).
  rewrite collection_insert. split; [reflexivity |]. split; [| repeat split].
  intros name Hn. by apply collection_insert_ne.
Qed.

Lemma ingest_ua_spec event user_agent :
  ingest_ua event user_agent = resolved_ua (IngestEvent.user_agent event) user_agent.
Proof.
  unfold ingest_ua, resolved_ua, py_or.
  by destruct (IngestEvent.user_agent event) as [[|c s]|].
Qed.

(** X10: the stored user agent is the explicit field when it is supplied and
    not empty; otherwise it is the [User-Agent] header exactly as received
    (an empty header is stored as the empty string, not as null), and null
    when there is no header. *)
Theorem ingest_ua_resolution w event x_forwarded_for user_agent db r db' :
  ingest w event x_forwarded_for user_agent db = (Ok r, db') ->
  exists d,
    collection db' "apievent" = collection db "apievent" ++ [d]
    /\ doc_get d "user_agent"
       = Some (opt_str (resolved_ua (IngestEvent.user_agent event) user_agent))
    /\ (forall s, IngestEvent.user_agent event = Some s -> s ≠ "" ->
                  doc_get d "user_agent" = Some (VStr s))
    /\ (absent_if_empty (IngestEvent.user_agent event) = None ->
        doc_get d "user_agent" = Some (opt_str user_agent)).
Proof.
  intros (p & Hp & Hacc & -> & ->)%ingest_Ok.
  set (e := ingest_record event p db x_forwarded_for user_agent).
  exists (stored w e). rewrite collection_insert. split; [reflexivity |].
  destruct (stored_event_fields w e) as (_ & _ & _ & _ & _ & _ & ->).
  subst e. cbn [ingest_record Apievent.user_agent]. rewrite ingest_ua_spec.
  split; [reflexivity |]. split.
  - intros s -> Hs. by destruct s.
  - intros Hno. by destruct (IngestEvent.user_agent event) as [[|c s]|].
Qed.

(** ** Ingestion: the address taken from the header *)

Lemma first_entry_no_comma h : no_comma (first_entry h) = true.
Proof.
  unfold no_comma. induction h as [|c h IH]; simpl; [done |].
  destruct (Ascii.eqb c ","%char) eqn:Hc; simpl; [done |]. by rewrite Hc.
Qed.

Lemma lstrip_forallb p s :
  string_forallb p s = true -> string_forallb p (lstrip s) = true.
Proof.
  induction s as [|c s IH]; simpl; [done |].
  intros [Hc Hs]%andb_true_iff. destruct (isspace c); [by apply IH |].
  simpl. by rewrite Hc, Hs.
Qed.

Lemma rstrip_forallb p s :
  string_forallb p s = true -> string_forallb p (rstrip s) = true.
Proof.
  induction s as [|c s IH]; simpl; [done |].
  intros [Hc Hs]%andb_true_iff. specialize (IH Hs).
  destruct (rstrip s) as [|c' r].
  - destruct (isspace c); simpl; [done | by rewrite Hc].
  - cbn [string_forallb] in *. by rewrite Hc, IH.
Qed.

Lemma first_char_lstrip s c : first_char (lstrip s) = Some c -> isspace c = false.
Proof.
  induction s as [|a s IH]; simpl; [discriminate |].
  destruct (isspace a) eqn:Ha; [exact IH |]. simpl. by intros [= <-].
Qed.

Lemma first_char_rstrip s c : first_char (rstrip s) = Some c -> first_char s = Some c.
Proof.
  destruct s as [|a s]; simpl; [done |].
  destruct (rstrip s); [destruct (isspace a) |]; simpl; done.
Qed.

Lemma last_char_rstrip s c : last_char (rstrip s) = Some c -> isspace c = false.
Proof.
  induction s as [|a s IH]; simpl; [discriminate |].
  destruct (rstrip s) as [|c' r].
  - destruct (isspace a) eqn:Ha; simpl; [discriminate | by intros [= <-]].
  - exact IH.
Qed.

Lemma strip_trimmed s : trimmed (strip s).
Proof.
  unfold trimmed, strip. split; intros c Hc.
  - by apply (first_char_lstrip s), first_char_rstrip.
  - by apply (last_char_rstrip (lstrip s)).
Qed.

(** X11: when the address comes from the forwarded-for header (no explicit
    [ip], or an empty one, and a header that is not empty), what is stored
    is a single entry: it contains no comma and neither starts nor ends
    with white space. *)
Theorem ingest_forwarded_ip_clean w event x_forwarded_for user_agent db r db' h :
  ingest w event x_forwarded_for user_agent db = (Ok r, db') ->
  absent_if_empty (IngestEvent.ip event) = None ->
  x_forwarded_for = Some h -> h ≠ "" ->
  exists d s,
    collection db' "apievent" = collection db "apievent" ++ [d]
    /\ doc_get d "ip" = Some (VStr s)
    /\ no_comma s = true
    /\ trimmed s.
Proof.
  intros (p & Hp & Hacc & -> & ->)%ingest_Ok Hno -> Hh.
  set (e := ingest_record event p db (Some h) user_agent).
  exists (stored w e), (strip (first_entry h)). rewrite collection_insert.
  split; [reflexivity |].
  destruct (stored_event_fields w e) as (_ & _ & _ & _ & _ & -> & _).
  subst e. cbn [ingest_record Apievent.ip]. rewrite ingest_ip_spec.
  split; [| split].
  - destruct (IngestEvent.ip event) as [[|c s]|]; try discriminate; by destruct h.
  - apply rstrip_forallb, lstrip_forallb, first_entry_no_comma.
  - apply strip_trimmed.
Qed.

(** ** Statistics: outcomes and bounds *)

Lemma project_stats_inv w project_id db s :
  project_stats w project_id db = Ok s ->
  ObjectId_is_valid project_id = true
  /\ Stats.total s
     = count_documents [("project_id", C_eq (VStr project_id))] (collection db "apievent")
  /\ Stats.errors s
     = count_documents [("project_id", C_eq (VStr project_id)); ("status", C_gte (VInt 400))]
                       (collection db "apievent")
  /\ Stats.hourly s
     = (fun h => Stats.Point (isoformat (fst h)) (snd h))
       <$> hourly_pipeline project_id (utcnow w - timedelta_hours 24) (collection db "apievent").
Proof.
  unfold project_stats, ObjectId_new.
  destruct (ObjectId_is_valid project_id); [| discriminate].
  cbn [try_except mbind result_bind]. intros [= <-]. done.
Qed.

(** X12: the stats call succeeds exactly for the identifiers that [ObjectId]
    accepts (24 characters that [bytes.fromhex] decodes: 24 hexadecimal
    digits, or fewer pairs of digits padded with white space), whatever the
    database holds (the project is never looked up), and its only failure
    is 400 "Invalid project id". *)
Theorem project_stats_outcomes w project_id db :
  ((exists s, project_stats w project_id db = Ok s) <-> ObjectId_is_valid project_id = true)
  /\ (forall e, project_stats w project_id db = Raise e ->
                e = HTTPException 400 "Invalid project id"
                /\ ObjectId_is_valid project_id = false).
Proof.
  unfold project_stats, ObjectId_new.
  destruct (ObjectId_is_valid project_id); cbn [try_except mbind result_bind].
  - split; [split; eauto | discriminate].
  - split; [split; [intros [s [=]] | discriminate] | by intros e [= <-]].
Qed.

Lemma filter_length_le {A} (f g : A -> bool) (l : list A) :
  (forall x, x ∈ l -> f x = true -> g x = true) ->
  (length (List.filter f l) <= length (List.filter g l))%nat.
Proof.
  induction l as [|a l IH]; intros H; [done |]. cbn [List.filter].
  assert (IH' := IH (fun x Hx => H x (list_elem_of_further _ _ _ Hx))).
  destruct (f a) eqn:Hf.
  - rewrite (H a) by (done || constructor). simpl. lia.
  - destruct (g a); simpl; lia.
Qed.

(** X13: the number of errors reported is never larger than the total. *)
Theorem project_stats_errors_le_total w project_id db s :
  project_stats w project_id db = Ok s ->
  (Stats.errors s <= Stats.total s)%nat.
Proof.
  intros (_ & -> & -> & _)%project_stats_inv. unfold count_documents.
  apply filter_length_le. intros d _. rewrite !matches_cons.
  change (matches [] d) with true. rewrite !andb_true_iff. tauto.
Qed.

Lemma tally_sum keys : sum_list_with snd (map_to_list (tally keys)) = length keys.
Proof.
  induction keys as [|k keys IH]; simpl.
  - by rewrite map_to_list_empty.
  - fold (tally keys). destruct (tally keys !! k) as [c|] eqn:Hk; simpl.
    + rewrite <- insert_delete_eq.
      rewrite map_to_list_insert by apply lookup_delete_eq.
      rewrite <- (map_to_list_delete _ _ _ Hk) in IH. simpl in *. lia.
    + rewrite map_to_list_insert by done. simpl. lia.
Qed.

Lemma sum_list_fmap {A} (f : A -> nat) (l : list A) :
  sum_list (f <$> l) = sum_list_with f l.
Proof. induction l as [|a l IH]; simpl; [done | by f_equal]. Qed.

Lemma omap_created_hour_length q (docs : list document) :
  (forall d, d ∈ docs -> matches q d = true -> is_Some (created_hour d)) ->
  length (omap created_hour (List.filter (matches q) docs))
  = length (List.filter (matches q) docs).
Proof.
  induction docs as [|a l IH]; intros H; [done |]. cbn [List.filter].
  assert (IH' := IH (fun x Hx => H x (list_elem_of_further _ _ _ Hx))).
  destruct (matches q a) eqn:Hm; [| exact IH'].
  destruct (H a) as [h Hh]; [constructor | done |].
  cbn [omap list_omap]. rewrite Hh. cbn [length]. f_equal. exact IH'.
Qed.

Lemma matches_in_window pid now d :
  matches [("project_id", C_eq (VStr pid));
           ("created_at", C_gte (VDate (datetime_to_millis (now - timedelta_hours 24))))] d
  = in_window pid now d.
Proof.
  apply eq_true_iff_eq. rewrite matches_window, window_lower_bound. unfold in_window.
  destruct (event_time pid d) as [ms|].
  - rewrite Z.leb_le. split; [by intros (? & [= <-] & ?) | eauto].
  - split; [by intros (? & [=] & _) | discriminate].
Qed.

(** X14: the counts of the hourly series add up to the number of events of the
    project created at or after the call time minus 24 hours, which is at
    most the total. *)
Theorem project_stats_hourly_sum w project_id db s :
  project_stats w project_id db = Ok s ->
  sum_list (Stats.count <$> Stats.hourly s)
  = length (List.filter (in_window project_id (utcnow w)) (collection db "apievent"))
  /\ (sum_list (Stats.count <$> Stats.hourly s) <= Stats.total s)%nat.
Proof.
  intros (_ & Ht & _ & Hh)%project_stats_inv.
  assert (Hsum : sum_list (Stats.count <$> Stats.hourly s)
                 = length (List.filter (in_window project_id (utcnow w))
                                       (collection db "apievent"))).
  { rewrite Hh, <- list_fmap_compose, sum_list_fmap.
    unfold hourly_pipeline, stage_sort_id, stage_group_hour, stage_match.
    change (sum_list_with _ ?l) with (sum_list_with snd l).
    rewrite merge_sort_Permutation, tally_sum, omap_created_hour_length.
    - f_equal. apply List.filter_ext. intros d. apply matches_in_window.
    - intros d _ (ms & [_ Hc]%event_time_spec & _)%matches_window.
      unfold created_hour. rewrite Hc. eauto. }
  split; [exact Hsum |]. rewrite Hsum, Ht. unfold count_documents.
  apply filter_length_le. intros d _. rewrite <- matches_in_window, matches_str.
  intros (ms & [Hp _]%event_time_spec & _)%matches_window. exact Hp.
Qed.

Lemma multiples_in_range (l : list Z) (a : Z) (n : nat) :
  StronglySorted Z.lt l ->
  Forall (fun h => h mod ms_per_hour = 0 /\ a < h <= a + Z.of_nat n * ms_per_hour) l ->
  (length l <= n)%nat.
Proof.
  revert a n. induction l as [|x l IH]; intros a n Hs Hall; simpl; [lia |].
  apply StronglySorted_inv in Hs as [Hs Hlt].
  apply Forall_cons in Hall as [(Hx & Hax & Hxb) Hall].
  unfold ms_per_hour in *.
  destruct n as [|n]; [lia |].
  apply le_n_S, (IH x n Hs).
  rewrite Forall_forall in *. intros y Hy.
  specialize (Hlt y Hy). destruct (Hall y Hy) as (Hym & _ & Hyb).
  split; [done |]. split; [done |].
  apply Z.mod_divide in Hx as [p ->]; [| lia].
  apply Z.mod_divide in Hym as [q ->]; [| lia]. nia.
Qed.

Lemma sorted_keys (rows : list (Z * nat)) :
  StronglySorted (fun a b => fst a < fst b) rows -> StronglySorted Z.lt rows.*1.
Proof.
  induction 1 as [|r rows Hs IH Hall]; [constructor |].
  rewrite fmap_cons. constructor; [exact IH |].
  rewrite List.Forall_forall in Hall. apply Forall_forall. intros k Hk.
  apply list_elem_of_fmap in Hk as (r' & -> & Hr'). apply Hall. by apply list_elem_of_In.
Qed.

Lemma filter_nonempty {A} (f : A -> bool) (l : list A) :
  (0 < length (List.filter f l))%nat -> exists x, x ∈ l /\ f x = true.
Proof.
  destruct (List.filter f l) as [|x xs] eqn:Hf; simpl; [lia |]. intros _.
  assert (Hin : List.In x (List.filter f l)) by (rewrite Hf; by left).
  apply List.filter_In in Hin as [Hin Hx]. exists x. split; [by apply list_elem_of_In | done].
Qed.

(** X15: when no stored event is stamped later than the call time, the hourly
    series has at most 25 points: a window of 24 hours meets at most 25
    clock hours. *)
Theorem project_stats_hourly_length w project_id db s :
  stamped_before (utcnow w) (collection db "apievent") ->
  project_stats w project_id db = Ok s ->
  (length (Stats.hourly s) <= 25)%nat.
Proof.
  intros Hst (_ & _ & _ & ->)%project_stats_inv.
  rewrite length_fmap.
  set (rows := hourly_pipeline _ _ _).
  rewrite <- (length_fmap fst rows).
  apply (multiples_in_range _ (datetime_to_millis (utcnow w) - 25 * ms_per_hour)).
  - apply sorted_keys, hourly_pipeline_sorted.
  - apply Forall_forall. intros h Hh.
    apply list_elem_of_fmap in Hh as ([h' c] & -> & Hr). cbn [fst].
    apply (hourly_pipeline_rows _ _ _ _ _ Hst) in Hr as (Hm & Hpos & Hc).
    split; [exact Hm |]. rewrite Hc in Hpos.
    apply filter_nonempty in Hpos as (d & _ & Hb). unfold in_bucket in Hb.
    destruct (event_time project_id d) as [ms|]; [| discriminate].
    rewrite !andb_true_iff, !Z.leb_le, Z.ltb_lt in Hb. unfold ms_per_hour in *. lia.
Qed.

(** ** Listing records *)

Lemma to_str_id_no_oid d : to_str_id d !! "_id" = None.
Proof.
  rewrite to_str_id_unfold, lookup_insert_ne by done. apply lookup_delete_eq.
Qed.

Lemma get_documents_elem name q n db d :
  d ∈ get_documents name q n db -> d ∈ collection db name /\ matches q d = true.
Proof.
  unfold get_documents. intros (i & Hd & _)%elem_of_take.
  apply list_elem_of_lookup_2, list_elem_of_In, List.filter_In in Hd as [Hin Hm].
  split; [by apply list_elem_of_In | done].
Qed.

Lemma get_documents_length name q n db : (length (get_documents name q n db) <= n)%nat.
Proof. unfold get_documents. rewrite length_take. lia. Qed.

(** X17: the key listing never has more than 100 records and only records of
    the requested project (compared as a string); each record has the
    stored fields unchanged, no ["_id"], and the key document's id as the
    string ["id"]. *)
Theorem list_keys_shape project_id db :
  (length (list_keys project_id db) <= 100)%nat
  /\ forall rec, rec ∈ list_keys project_id db ->
       rec !! "_id" = None
       /\ rec !! "project_id" = Some (VStr project_id)
       /\ exists d, d ∈ collection db "apikey"
                    /\ rec !! "id" = Some (VStr (str_oid (_id d)))
                    /\ forall k, k ≠ "id" -> k ≠ "_id" -> rec !! k = fields d !! k.
Proof.
  unfold list_keys. split.
  - rewrite length_map. apply get_documents_length.
  - intros rec (d & -> & [Hin Hm]%get_documents_elem)%list_elem_of_fmap.
    split; [apply to_str_id_no_oid |]. split.
    + rewrite to_str_id_lookup by done. apply matches_str in Hm.
      by rewrite <- doc_get_field.
    + exists d. split; [done |]. split; [apply to_str_id_lookup_id |].
      intros k H1 H2. by apply to_str_id_lookup.
Qed.

Lemma create_project_cases w payload db :
  create_project w payload db
  = (Ok {[ "id" := VStr (str_oid (next_oid w)) ]},
     <["project" := collection db "project"
         ++ [stored w (Project.new (CreateProject.name payload) (CreateProject.slug payload)
                                   (CreateProject.description payload))]]> db).
Proof. reflexivity. Qed.

Lemma list_projects_unfold db :
  list_projects db = to_str_id <$> take 50 (collection db "project").
Proof.
  unfold list_projects, get_documents. f_equal. f_equal.
  induction (collection db "project") as [|a l IH]; [done |]. simpl. by f_equal.
Qed.

(** X18: creating a project always succeeds (slugs are not checked for
    uniqueness).  While fewer than 50 projects are stored, the new project
    appears in the project listing with the submitted name, slug and
    description and with the returned id; once 50 are stored, the listing
    no longer changes. *)
Theorem create_project_listed w payload db :
  fst (create_project w payload db) = Ok {[ "id" := VStr (str_oid (next_oid w)) ]}
  /\ ((length (collection db "project") < 50)%nat ->
      exists rec,
        rec ∈ list_projects (snd (create_project w payload db))
        /\ rec !! "id" = Some (VStr (str_oid (next_oid w)))
        /\ rec !! "name" = Some (VStr (CreateProject.name payload))
        /\ rec !! "slug" = Some (VStr (CreateProject.slug payload))
        /\ rec !! "description" = Some (opt_str (CreateProject.description payload)))
  /\ ((50 <= length (collection db "project"))%nat ->
      list_projects (snd (create_project w payload db)) = list_projects db).
Proof.
  rewrite create_project_cases. cbn [fst snd]. split; [reflexivity |].
  rewrite !list_projects_unfold, collection_insert. split.
  - intros Hlt.
    set (d := stored w _). exists (to_str_id d). split; [| repeat split].
    apply list_elem_of_fmap_2. rewrite take_app. apply elem_of_app. right.
    destruct (50 - _)%nat eqn:Hn; [lia |]. simpl. constructor.
  - intros Hge. by rewrite take_app_le.
Qed.

(** X19: a project that was just created under a slug that no stored project
    has can be ingested to at once: an acceptable event for this slug is
    stored with the id that the creation returned as its [project_id]. *)
Theorem create_project_then_ingest w1 w2 payload event x_forwarded_for user_agent db :
  (forall p, p ∈ collection db "project" ->
             doc_get p "slug" ≠ Some (VStr (CreateProject.slug payload))) ->
  IngestEvent.project_slug event = CreateProject.slug payload ->
  meets_schema event ->
  exists pid r db2 d,
    fst (create_project w1 payload db) = Ok {[ "id" := VStr pid ]}
    /\ ingest w2 event x_forwarded_for user_agent (snd (create_project w1 payload db))
       = (Ok r, db2)
    /\ collection db2 "apievent" = collection db "apievent" ++ [d]
    /\ doc_get d "project_id" = Some (VStr pid).
Proof.
  intros Hno Hslug Hacc%acceptable_spec.
  rewrite create_project_cases. cbn [fst snd]. rewrite ingest_cases, collection_insert.
  rewrite (find_one_first _ (collection db "project") _ []), Hacc.
  - eexists _, _, _, _. split; [reflexivity |]. split; [reflexivity |].
    rewrite collection_insert, collection_insert_ne by done. split; reflexivity.
  - intros x Hx. apply not_true_is_false. rewrite matches_str, Hslug. by apply Hno.
  - apply matches_str. rewrite Hslug. reflexivity.
Qed.

(** ** Issuing a key and using it *)

Lemma stored_key_fields w (k : Apikey.t) :
  doc_get (stored w k) "project_id" = Some (VStr (Apikey.project_id k))
  /\ doc_get (stored w k) "name" = Some (VStr (Apikey.name k))
  /\ doc_get (stored w k) "key" = Some (VStr (Apikey.key k))
  /\ doc_get (stored w k) "active" = Some (VBool (Apikey.active k)).
Proof. repeat split. Qed.

Lemma ingest_api_key_id_db event p db db' :
  collection db' "apikey" = collection db "apikey" ->
  ingest_api_key_id event p db' = ingest_api_key_id event p db.
Proof. intros Hc. unfold ingest_api_key_id. by rewrite Hc. Qed.

(** X4: a key issued for a project and then submitted with an event of that
    project is associated with the event (given that no earlier key has the
    same value) exactly when the key was issued under the canonical
    spelling of the project id, the one [str] gives for the stored [_id]:
    key creation stores the submitted spelling, while ingestion compares
    with the canonical one, so a key issued under another spelling (for
    instance in upper case) is never associated. *)
Theorem create_key_then_ingest w1 w2 payload event x_forwarded_for user_agent db p :
  find_one [("slug", C_eq (VStr (IngestEvent.project_slug event)))]
           (collection db "project") = Some p ->
  ObjectId_new (CreateApiKey.project_id payload) = Ok (_id p) ->
  IngestEvent.api_key event = Some (token_urlsafe w1) ->
  token_urlsafe w1 ≠ "" ->
  meets_schema event ->
  (forall x, x ∈ collection db "apikey" -> ~ active_key_of p (token_urlsafe w1) x) ->
  exists kid r db2 d,
    fst (create_key w1 payload db)
    = Ok {[ "id" := VStr kid; "key" := VStr (token_urlsafe w1) ]}
    /\ ingest w2 event x_forwarded_for user_agent (snd (create_key w1 payload db)) = (Ok r, db2)
    /\ collection db2 "apievent" = collection db "apievent" ++ [d]
    /\ (CreateApiKey.project_id payload = str_oid (_id p) ->
        doc_get d "api_key_id" = Some (VStr kid))
    /\ (CreateApiKey.project_id payload ≠ str_oid (_id p) ->
        doc_get d "api_key_id" = Some VNone).
Proof.
  intros Hp Hoid Hk Htok Hacc%acceptable_spec Hold.
  pose proof (find_one_Some _ _ _ Hp) as [Hin _].
  rewrite create_key_cases, Hoid.
  destruct (find_one_exists [("_id", C_eq (VOid (_id p)))] _ p Hin) as [p' ->];
    [by apply matches_id |].
  cbn [fst snd].
  set (new := stored w1 (Apikey.new (CreateApiKey.project_id payload)
                                    (CreateApiKey.name payload) (token_urlsafe w1) true)).
  set (db1 := <["apikey" := collection db "apikey" ++ [new]]> db).
  assert (Hp1 : find_one [("slug", C_eq (VStr (IngestEvent.project_slug event)))]
                         (collection db1 "project") = Some p).
  { subst db1. by rewrite collection_insert_ne. }
  rewrite (ingest_resolved _ _ _ _ _ _ Hp1), Hacc.
  exists (str_oid (next_oid w1)). eexists _, _, _.
  split; [reflexivity |]. split; [reflexivity |].
  rewrite collection_insert. subst db1. rewrite collection_insert_ne by done.
  split; [reflexivity |].
  destruct (stored_event_fields w2
              (ingest_record event p (<["apikey" := collection db "apikey" ++ [new]]> db)
                             x_forwarded_for user_agent)) as (_ & _ & -> & _).
  cbn [ingest_record Apievent.api_key_id]. unfold ingest_api_key_id.
  rewrite Hk, collection_insert.
  destruct (token_urlsafe w1) as [|c t] eqn:Ht; [done |]. cbn [truthy_str opt_str].
  assert (Hnew : active_key_of p (String c t) new
                 <-> CreateApiKey.project_id payload = str_oid (_id p)).
  { unfold active_key_of. destruct (stored_key_fields w1
      (Apikey.new (CreateApiKey.project_id payload) (CreateApiKey.name payload)
                  (String c t) true)) as (Hpid & _ & Hkey & Hact).
    subst new. try rewrite Ht. rewrite Hpid, Hkey, Hact.
    cbn [Apikey.project_id Apikey.key Apikey.active].
    split; [by intros (_ & [= ->] & _) | by intros ->]. }
  split; intros Hcmp.
  - rewrite (find_one_first _ (collection db "apikey") new []), truthy_doc_Some.
    + reflexivity.
    + intros x Hx. apply not_true_is_false. rewrite matches_active_key. by apply Hold.
    + apply matches_active_key. by apply Hnew.
  - rewrite find_one_None; [reflexivity |].
    intros x [Hx | ->%list_elem_of_singleton]%elem_of_app; apply not_true_is_false;
      rewrite matches_active_key; [by apply Hold | by rewrite Hnew].
Qed.

(** ** What a call does to the database *)

(** A call either leaves the database as it is or appends one document
    to one collection, and then it succeeds. *)
Lemma handle_effect w c db :
  snd (handle w c db) = db
  \/ exists name d r,
       handle w c db = (Ok r, <[name := collection db name ++ [d]]> db).
Proof.
  destruct c as [payload | payload | event xff ua]; cbn [handle].
  - right. rewrite create_project_cases. eauto.
  - rewrite create_key_cases. destruct (ObjectId_new _); [| by left].
    destruct (find_one _ _); [right; eauto | by left].
  - rewrite ingest_cases. destruct (find_one _ _); [| by left].
    destruct (acceptable event); [right; eauto | by left].
Qed.

Lemma collection_extend name (d : document) (db : database) n :
  exists k, collection (<[name := collection db name ++ [d]]> db) n = collection db n ++ k
            /\ (length k <= 1)%nat.
Proof.
  destruct (decide (name = n)) as [<- | Hne].
  - rewrite collection_insert. exists [d]. by split.
  - rewrite collection_insert_ne by done. exists []. split; [by rewrite app_nil_r | simpl; lia].
Qed.

(** X20: no call deletes or changes a stored document: after any call every
    collection is what it was, followed by at most one new document; and a
    call that fails leaves the whole database unchanged. *)
Theorem handle_append_only w c db :
  (forall name, exists k,
      collection (snd (handle w c db)) name = collection db name ++ k
      /\ (length k <= 1)%nat)
  /\ (forall e, fst (handle w c db) = Raise e -> snd (handle w c db) = db).
Proof.
  destruct (handle_effect w c db) as [Hsame | (name & d & r & Hh)].
  - split; [| done]. intros n. rewrite Hsame. exists []. split; [by rewrite app_nil_r | simpl; lia].
  - rewrite Hh. cbn [fst snd]. split; [| discriminate].
    intros n. apply collection_extend.
Qed.

(** ** Referential integrity of reachable databases *)

Lemma elem_of_collection_extend name (d x : document) (db : database) n :
  x ∈ collection db n -> x ∈ collection (<[name := collection db name ++ [d]]> db) n.
Proof.
  intros Hx. destruct (collection_extend name d db n) as (k & -> & _).
  apply elem_of_app. by left.
Qed.

Lemma key_refers_extend name d db kd :
  key_refers db kd -> key_refers (<[name := collection db name ++ [d]]> db) kd.
Proof.
  intros (Ha & pid & p & Hpid & Hp & Ho). split; [done |].
  exists pid, p. split; [done |]. split; [by apply elem_of_collection_extend | done].
Qed.

Lemma event_refers_extend name d0 db d :
  event_refers db d -> event_refers (<[name := collection db name ++ [d0]]> db) d.
Proof.
  intros (p & Hp & Hpid & Hk). exists p.
  split; [by apply elem_of_collection_extend |]. split; [done |].
  destruct Hk as [Hk | (k & kd & Hkd & Hact & Hk)]; [by left | right].
  exists k, kd. split; [by apply elem_of_collection_extend | done].
Qed.

Lemma ingest_record_refers event p db x_forwarded_for user_agent w :
  find_one [("slug", C_eq (VStr (IngestEvent.project_slug event)))]
           (collection db "project") = Some p ->
  event_refers db (stored w (ingest_record event p db x_forwarded_for user_agent)).
Proof.
  intros [Hin _]%find_one_Some. exists p. split; [done |].
  destruct (stored_event_fields w (ingest_record event p db x_forwarded_for user_agent))
    as (_ & -> & -> & _).
  cbn [ingest_record Apievent.project_id Apievent.api_key_id]. split; [done |].
  destruct (ingest_api_key_id event p db) as [kid|] eqn:Hk; [right | by left].
  apply ingest_api_key_id_Some in Hk as (k & kd & _ & Hkd & Hact & ->). eauto.
Qed.

Lemma ingest_record_in_schema event p db x_forwarded_for user_agent w :
  acceptable event = true ->
  event_in_schema (stored w (ingest_record event p db x_forwarded_for user_agent)).
Proof.
  intros (Hm & Hst & Hlat & _)%acceptable_spec.
  exists (IngestEvent.method event), (IngestEvent.status event), (IngestEvent.latency_ms event).
  repeat split; (done || lia).
Qed.

Lemma reachable_integrity now db :
  reachable now db ->
  (forall kd, kd ∈ collection db "apikey" -> key_refers db kd)
  /\ (forall d, d ∈ collection db "apievent" -> event_refers db d /\ event_in_schema d).
Proof.
  induction 1 as [now | now now' db _ IH Hle | now db w c _ [IHk IHe] Hle].
  - split; intros x Hx; by apply elem_of_nil in Hx.
  - exact IH.
  - destruct c as [payload | payload | event xff ua]; cbn [handle].
    + rewrite create_project_cases. cbn [snd]. split.
      * intros kd Hkd. rewrite collection_insert_ne in Hkd by done.
        by apply key_refers_extend, IHk.
      * intros d Hd. rewrite collection_insert_ne in Hd by done.
        destruct (IHe d Hd). split; [by apply event_refers_extend | done].
    + rewrite create_key_cases.
      destruct (ObjectId_new _) as [oid|] eqn:Hoid; [| by split].
      destruct (find_one _ _) as [p|] eqn:Hp; [| by split].
      apply find_one_Some in Hp as [Hin Hid%matches_id]. cbn [snd]. split.
      * intros kd Hkd. rewrite collection_insert in Hkd.
        apply elem_of_app in Hkd as [Hkd | ->%list_elem_of_singleton].
        -- by apply key_refers_extend, IHk.
        -- split; [reflexivity |].
           exists (CreateApiKey.project_id payload), p. split; [reflexivity |].
           split; [by apply elem_of_collection_extend | by rewrite Hid].
      * intros d Hd. rewrite collection_insert_ne in Hd by done.
        destruct (IHe d Hd). split; [by apply event_refers_extend | done].
    + rewrite ingest_cases.
      destruct (find_one _ _) as [p|] eqn:Hp; [| by split].
      destruct (acceptable event) eqn:Hacc; [| by split]. cbn [snd]. split.
      * intros kd Hkd. rewrite collection_insert_ne in Hkd by done.
        by apply key_refers_extend, IHk.
      * intros d Hd. rewrite collection_insert in Hd.
        apply elem_of_app in Hd as [Hd | ->%list_elem_of_singleton].
        -- destruct (IHe d Hd). split; [by apply event_refers_extend | done].
        -- split; [by apply event_refers_extend, ingest_record_refers
                  | by apply ingest_record_in_schema].
Qed.

(** X21: in every database the service can reach from an empty store, each
    stored key is active (no call ever deactivates a key) and names a
    stored project. *)
Theorem reachable_keys_refer now db kd :
  reachable now db -> kd ∈ collection db "apikey" -> key_refers db kd.
Proof. intros [Hk _]%reachable_integrity. apply Hk. Qed.

(** X22: in every database the service can reach from an empty store, each
    stored event names a stored project by its canonical id; its key, if
    any, is a stored active key of that same project; and its method,
    status and latency are within the bounds of the event schema. *)
Theorem reachable_events_refer now db d :
  reachable now db -> d ∈ collection db "apievent" ->
  event_refers db d /\ event_in_schema d.
Proof. intros [_ He]%reachable_integrity. apply He. Qed.

(** ** The further properties on the sample data *)

Lemma create_key_failure_witness :
  HTTPException 400 "Invalid project id" = HTTPException 400 "Invalid project id"
  /\ Sample.db0 = Sample.db0.
Proof.
  apply (create_key_failure Sample.w0 (CreateApiKey.new "not-an-id" "ci") Sample.db0
           (HTTPException 400 "Invalid project id") Sample.db0).
  vm_compute. reflexivity.
Defined.

Lemma create_key_needs_project_witness :
  exists r db', create_key Sample.w0 Sample.new_key Sample.db0 = (Ok r, db').
Proof.
  apply (proj2 (create_key_needs_project Sample.w0 Sample.new_key Sample.db0)).
  exists (Oid Sample.shop_id), Sample.shop. split; [reflexivity |]. split; [| reflexivity].
  vm_compute. constructor.
Defined.

Lemma create_key_success_witness :
  exists d,
    collection (snd (create_key Sample.w0 Scenario.upper_key Sample.db0)) "apikey"
    = [Sample.blog_key; d]
    /\ doc_get d "project_id" = Some (VStr Scenario.shop_id_upper)
    /\ doc_get d "active" = Some (VBool true).
Proof.
  destruct (create_key_success Sample.w0 Scenario.upper_key Sample.db0 Sample.shop)
    as (d & db' & Hc & Hk & _ & Hpid & _ & _ & Hact).
  - vm_compute. constructor.
  - reflexivity.
  - exists d. rewrite Hc. cbn [snd]. split; [exact Hk |]. split; [exact Hpid | exact Hact].
Defined.

Lemma ingest_success_requires_witness :
  (exists p, p ∈ collection Sample.db0 "project" /\ doc_get p "slug" = Some (VStr "shop"))
  /\ meets_schema Scenario.full_event.
Proof.
  eapply (ingest_success_requires Sample.w0 Scenario.full_event None None Sample.db0).
  vm_compute. reflexivity.
Defined.

Lemma ingest_rejections_witness :
  fst (ingest Sample.w0 Scenario.bad_event None None Sample.db0)
  = Raise (ValidationError "Apievent")
  /\ snd (ingest Sample.w0 Scenario.bad_event None None Sample.db0) = Sample.db0.
Proof.
  destruct (ingest_rejections Sample.w0 Scenario.bad_event None None Sample.db0)
    as (_ & Hv & Hkeep).
  assert (Hr : fst (ingest Sample.w0 Scenario.bad_event None None Sample.db0)
               = Raise (ValidationError "Apievent")).
  { apply Hv. split.
    - exists Sample.shop. split; [vm_compute; constructor | reflexivity].
    - intros (_ & [_ Hstatus] & _). vm_compute in Hstatus. by apply Hstatus. }
  split; [exact Hr | exact (Hkeep _ Hr)].
Defined.

Lemma ingest_first_project_witness :
  exists d,
    collection (snd (ingest Sample.w0 Scenario.full_event None None Scenario.twins))
               "apievent" = [d]
    /\ doc_get d "project_id" = Some (VStr Sample.shop_id).
Proof.
  destruct (ingest_first_project Sample.w0 Scenario.full_event None None Scenario.twins
              [Sample.blog] Sample.shop [Scenario.shop_twin])
    as (r & db' & d & Hi & Hc & Hp).
  - reflexivity.
  - intros x Hx. elem_cases Hx. vm_compute. discriminate.
  - reflexivity.
  - unfold meets_schema. split; [vm_compute; set_solver |].
    split; [vm_compute; split; discriminate |].
    split; [vm_compute; discriminate |].
    split; intros n [= <-]; lia.
  - exists d. rewrite Hi. cbn [snd]. split; [exact Hc | exact Hp].
Defined.

Lemma ingest_first_key_witness :
  exists d,
    collection (snd (ingest Sample.w0 (Sample.event "blog" (Some "blog-token") None None)
                            None None Sample.db0)) "apievent" = [d]
    /\ doc_get d "api_key_id" = Some (VStr "65a000000000000000000001").
Proof.
  destruct (ingest_first_key Sample.w0 (Sample.event "blog" (Some "blog-token") None None)
              None None Sample.db0 Sample.blog "blog-token" [] Sample.blog_key [])
    as (r & db' & d & Hi & Hc & Hk).
  - vm_compute. reflexivity.
  - unfold meets_schema. split; [vm_compute; set_solver |].
    split; [vm_compute; split; discriminate |].
    split; [vm_compute; discriminate |].
    split; intros n [=].
  - reflexivity.
  - discriminate.
  - reflexivity.
  - intros x Hx. by apply elem_of_nil in Hx.
  - repeat split.
  - exists d. rewrite Hi. cbn [snd]. split; [exact Hc | exact Hk].
Defined.

Lemma ingest_stores_payload_witness :
  exists d,
    collection (snd (ingest Sample.w0 Scenario.full_event None None Sample.db0)) "apievent" = [d]
    /\ doc_get d "status" = Some (VInt 503)
    /\ doc_get d "request_size" = Some (VInt 512)
    /\ doc_get d "error_message" = Some (VStr "upstream timeout").
Proof.
  destruct (ingest_stores_payload Sample.w0 Scenario.full_event None None Sample.db0
              Sample.created
              (snd (ingest Sample.w0 Scenario.full_event None None Sample.db0)))
    as (d & Hc & _ & _ & _ & _ & Hst & _ & Hrs & _ & Hem).
  - vm_compute. reflexivity.
  - exists d. split; [exact Hc |]. split; [exact Hst |]. split; [exact Hrs | exact Hem].
Defined.

Lemma ingest_ua_resolution_witness :
  exists d,
    collection (snd (ingest Sample.w0 (Sample.event "shop" None None None)
                            None (Some "") Sample.db0)) "apievent" = [d]
    /\ doc_get d "user_agent" = Some (VStr "").
Proof.
  destruct (ingest_ua_resolution Sample.w0 (Sample.event "shop" None None None)
              None (Some "") Sample.db0 Sample.created
              (snd (ingest Sample.w0 (Sample.event "shop" None None None)
                           None (Some "") Sample.db0)))
    as (d & Hc & Hua & _).
  - vm_compute. reflexivity.
  - exists d. split; [exact Hc | exact Hua].
Defined.

Lemma ingest_forwarded_ip_clean_witness :
  exists d s,
    collection (snd (ingest Sample.w0 (Sample.event "shop" None None None)
                            (Some "  203.0.113.7 , 10.0.0.1") None Sample.db0)) "apievent" = [d]
    /\ doc_get d "ip" = Some (VStr s)
    /\ no_comma s = true
    /\ trimmed s.
Proof.
  apply (ingest_forwarded_ip_clean Sample.w0 (Sample.event "shop" None None None)
           (Some "  203.0.113.7 , 10.0.0.1") None Sample.db0 Sample.created
           (snd (ingest Sample.w0 (Sample.event "shop" None None None)
                        (Some "  203.0.113.7 , 10.0.0.1") None Sample.db0))
           "  203.0.113.7 , 10.0.0.1").
  - vm_compute. reflexivity.
  - reflexivity.
  - reflexivity.
  - discriminate.
Defined.

Lemma project_stats_outcomes_witness :
  (exists s, project_stats Sample.w1 "507f1f77bcf86cd7994390  " Sample.db1 = Ok s)
  /\ HTTPException 400 "Invalid project id" = HTTPException 400 "Invalid project id"
  /\ ObjectId_is_valid "shop" = false.
Proof.
  split.
  - apply (proj1 (project_stats_outcomes Sample.w1 "507f1f77bcf86cd7994390  " Sample.db1)).
    reflexivity.
  - apply (proj2 (project_stats_outcomes Sample.w1 "shop" Sample.db1)
             (HTTPException 400 "Invalid project id")).
    reflexivity.
Defined.

Lemma project_stats_errors_le_total_witness : (2 <= 3)%nat.
Proof.
  apply (project_stats_errors_le_total Sample.w1 Sample.shop_id Sample.db1
           (Stats.Response 3 2 (VFloat (20 # 1))
              [ Stats.Point "2023-11-14T21:00:00" 1; Stats.Point "2023-11-14T22:00:00" 2 ])).
  vm_compute. reflexivity.
Defined.

Lemma project_stats_hourly_sum_witness :
  length (List.filter (in_window Sample.blog_id (utcnow Sample.w1))
                      (collection Sample.db1 "apievent")) = 3%nat.
Proof.
  symmetry.
  apply (project_stats_hourly_sum Sample.w1 Sample.blog_id Sample.db1
           (Stats.Response 4 1 (VFloat (61 # 4))
              [ Stats.Point "2023-11-14T20:00:00" 2; Stats.Point "2023-11-14T23:00:00" 1 ])).
  vm_compute. reflexivity.
Defined.

Lemma project_stats_hourly_length_witness : (2 <= 25)%nat.
Proof.
  apply (project_stats_hourly_length Sample.w1 Sample.blog_id Sample.db1
           (Stats.Response 4 1 (VFloat (61 # 4))
              [ Stats.Point "2023-11-14T20:00:00" 2; Stats.Point "2023-11-14T23:00:00" 1 ])).
  - apply (stamped_before_stored (utcnow Sample.w1) Sample.history).
    repeat constructor; vm_compute; discriminate.
  - vm_compute. reflexivity.
Defined.

Lemma list_keys_shape_witness :
  to_str_id Sample.blog_key !! "_id" = None
  /\ to_str_id Sample.blog_key !! "project_id" = Some (VStr Sample.blog_id).
Proof.
  destruct (proj2 (list_keys_shape Sample.blog_id Sample.db0) (to_str_id Sample.blog_key))
    as (Hid & Hp & _).
  - vm_compute. constructor.
  - split; [exact Hid | exact Hp].
Defined.

Lemma create_project_listed_witness :
  exists rec,
    rec ∈ list_projects (snd (create_project Scenario.wa Scenario.new_project Sample.db0))
    /\ rec !! "id" = Some (VStr "65c000000000000000000001")
    /\ rec !! "slug" = Some (VStr "shop")
    /\ rec !! "description" = Some (VStr "web shop").
Proof.
  destruct (proj1 (proj2 (create_project_listed Scenario.wa Scenario.new_project Sample.db0)))
    as (rec & Hin & Hid & _ & Hslug & Hdesc).
  - vm_compute. lia.
  - exists rec. split; [exact Hin |]. split; [exact Hid |]. split; [exact Hslug | exact Hdesc].
Defined.

Lemma create_project_then_ingest_witness :
  exists pid d,
    fst (create_project Scenario.wa Scenario.new_project ∅) = Ok {[ "id" := VStr pid ]}
    /\ collection (snd (ingest Scenario.wc Scenario.full_event None None
                               (snd (create_project Scenario.wa Scenario.new_project ∅))))
                  "apievent" = [d]
    /\ doc_get d "project_id" = Some (VStr pid).
Proof.
  destruct (create_project_then_ingest Scenario.wa Scenario.wc Scenario.new_project
              Scenario.full_event None None ∅)
    as (pid & r & db2 & d & Hc & Hi & He & Hp).
  - intros p Hp. elem_cases Hp.
  - reflexivity.
  - unfold meets_schema. split; [vm_compute; set_solver |].
    split; [vm_compute; split; discriminate |].
    split; [vm_compute; discriminate |].
    split; intros n [= <-]; lia.
  - exists pid, d. split; [exact Hc |]. rewrite Hi. cbn [snd]. split; [exact He | exact Hp].
Defined.

Lemma create_key_then_ingest_witness :
  exists d,
    collection (snd (ingest Scenario.wc (Sample.event "shop" (Some "tok-1") None None)
                            None None
                            (snd (create_key Scenario.wb Scenario.upper_key Sample.db0))))
               "apievent" = [d]
    /\ doc_get d "api_key_id" = Some VNone.
Proof.
  destruct (create_key_then_ingest Scenario.wb Scenario.wc Scenario.upper_key
              (Sample.event "shop" (Some "tok-1") None None) None None Sample.db0 Sample.shop)
    as (kid & r & db2 & d & _ & Hi & He & _ & Hnull).
  - vm_compute. reflexivity.
  - reflexivity.
  - reflexivity.
  - discriminate.
  - unfold meets_schema. split; [vm_compute; set_solver |].
    split; [vm_compute; split; discriminate |].
    split; [vm_compute; discriminate |].
    split; intros n [=].
  - intros x Hx (Hk & _). elem_cases Hx. vm_compute in Hk. discriminate.
  - exists d. rewrite Hi. cbn [snd]. split; [exact He |]. apply Hnull. discriminate.
Defined.

Lemma handle_append_only_witness :
  snd (handle Sample.w0 (IngestCall Scenario.bad_event None None) Sample.db0) = Sample.db0.
Proof.
  apply (proj2 (handle_append_only Sample.w0 (IngestCall Scenario.bad_event None None)
                  Sample.db0) (ValidationError "Apievent")).
  vm_compute. reflexivity.
Defined.

(** The sample run is a run of the service. *)
Ltac sample_run_reachable :=
  unfold Scenario.db_c, Scenario.db_b, Scenario.db_a;
  apply (reachable_call (utcnow Scenario.wb)); [| vm_compute; discriminate];
  apply (reachable_call (utcnow Scenario.wa)); [| vm_compute; discriminate];
  apply (reachable_call (utcnow Scenario.wa)); [| vm_compute; discriminate];
  apply reachable_start.

Lemma reachable_keys_refer_witness : key_refers Scenario.db_c Scenario.issued_key.
Proof.
  apply (reachable_keys_refer (utcnow Scenario.wc) Scenario.db_c Scenario.issued_key).
  - sample_run_reachable.
  - vm_compute. constructor.
Defined.

Lemma reachable_events_refer_witness :
  event_refers Scenario.db_c Scenario.logged_event
  /\ event_in_schema Scenario.logged_event.
Proof.
  apply (reachable_events_refer (utcnow Scenario.wc) Scenario.db_c Scenario.logged_event).
  - sample_run_reachable.
  - vm_compute. constructor.
Defined.

(** ** The average latency over reachable databases *)

Lemma project_stats_avg w project_id db s :
  project_stats w project_id db = Ok s ->
  Stats.avg_latency s
  = match stage_group_avg "latency_ms"
            (stage_match [("project_id", C_eq (VStr project_id))] (collection db "apievent")) with
    | row :: _ => avg row
    | [] => VInt 0
    end.
Proof.
  unfold project_stats, ObjectId_new.
  destruct (ObjectId_is_valid project_id); [| discriminate].
  cbn [try_except mbind result_bind]. intros [= <-]. done.
Qed.

Lemma reachable_records now db :
  reachable now db ->
  exists recs, collection db "apievent" = stored_all recs
               /\ Forall (fun we => Apievent.constraints (snd we) = true) recs.
Proof.
  induction 1 as [now | now now' db _ IH Hle | now db w c _ (recs & Hc & Hall) Hle].
  - exists []. split; [reflexivity | constructor].
  - exact IH.
  - destruct c as [payload | payload | event xff ua]; cbn [handle].
    + exists recs. by rewrite create_project_events.
    + exists recs. by rewrite create_key_events.
    + rewrite ingest_cases. destruct (find_one _ _) as [p|]; [| by exists recs].
      destruct (acceptable event) eqn:Hacc; [| by exists recs].
      exists (recs ++ [(w, ingest_record event p db xff ua)]). cbn [snd].
      rewrite collection_insert, Hc. unfold stored_all. rewrite fmap_app. split; [reflexivity |].
      apply Forall_app. split; [exact Hall |]. constructor; [exact Hacc | constructor].
Qed.

Lemma Qsum_nonneg (l : list Q) : Forall (fun q => (0 <= q)%Q) l -> (0 <= Qsum l)%Q.
Proof.
  induction 1 as [|q l Hq _ IH]; simpl; [apply Qle_refl |].
  change 0%Q with (0 + 0)%Q. by apply Qplus_le_compat.
Qed.

(** X23: in every database the service can reach from an empty store, the
    average latency of a stats response is the integer 0 when the project
    has no events, and otherwise a number that is not negative; it is never
    null. *)
Theorem reachable_stats_average now db w project_id s :
  reachable now db ->
  project_stats w project_id db = Ok s ->
  (Stats.total s = 0%nat /\ Stats.avg_latency s = VInt 0)
  \/ ((0 < Stats.total s)%nat
      /\ exists q, Stats.avg_latency s = VFloat q /\ (0 <= q)%Q).
Proof.
  intros (recs & Hc & Hall)%reachable_records Hs.
  pose proof (project_stats_avg _ _ _ _ Hs) as Havg.
  apply project_stats_inv in Hs as (_ & Ht & _).
  rewrite Hc in Ht, Havg. rewrite total_of_stored in Ht.
  unfold stage_group_avg in Havg.
  destruct (stage_match _ _) as [|d ds] eqn:Hm.
  - left. apply stage_match_stored_nil in Hm. rewrite Ht, Hm. by split.
  - right. rewrite <- Hm in Havg. cbn [avg] in Havg. unfold acc_avg in Havg.
    rewrite latencies_of_stored in Havg.
    assert (Hne : events_of project_id recs ≠ []).
    { intros He. unfold events_of in He. apply fmap_nil_inv in He.
      rewrite stage_match_stored, He in Hm. discriminate. }
    assert (Hpos : Forall (fun q => (0 <= q)%Q)
                          (Apievent.latency_ms <$> events_of project_id recs)).
    { apply Forall_fmap, Forall_forall. intros e He. unfold events_of in He.
      apply list_elem_of_fmap in He as (we & -> & Hwe).
      apply list_elem_of_In, List.filter_In in Hwe as [Hwe _].
      rewrite Forall_forall in Hall. specialize (Hall we (proj2 (list_elem_of_In _ _) Hwe)).
      cbn beta in Hall. unfold Apievent.constraints, Apievent.field_constraints in Hall.
      rewrite !andb_true_iff in Hall. destruct Hall as [[[_ Hl] _] _].
      by apply Qle_bool_iff. }
    split; [rewrite Ht; destruct (events_of project_id recs); [done | simpl; lia] |].
    destruct (Apievent.latency_ms <$> events_of project_id recs) as [|x xs] eqn:Hl.
    { apply fmap_nil_inv in Hl. contradiction. }
    eexists. split; [exact Havg |].
    rewrite Qred_correct. apply Qmult_le_0_compat; [by apply Qsum_nonneg |].
    apply Qinv_le_0_compat. change 0%Q with (inject_Z 0). rewrite <- Zle_Qle. lia.
Qed.

Lemma reachable_stats_average_witness :
  exists q, VFloat (10 # 1) = VFloat q /\ (0 <= q)%Q.
Proof.
  destruct (reachable_stats_average (utcnow Scenario.wc) Scenario.db_c Scenario.wc
              "65c000000000000000000001"
              (Stats.Response 1 0 (VFloat (10 # 1)) [ Stats.Point "2023-11-14T22:00:00" 1 ]))
    as [[Ht _] | [_ Hq]].
  - sample_run_reachable.
  - vm_compute. reflexivity.
  - discriminate Ht.
  - exact Hq.
Defined.

(** ** The time stamps of the hourly series *)

Lemma append_cons x (a b : string) : String x a +:+ b = String x (a +:+ b).
Proof. reflexivity. Qed.

Lemma append_assoc (a b c : string) : (a +:+ b) +:+ c = a +:+ (b +:+ c).
Proof. induction a as [|x a IH]; [done |]. rewrite !append_cons. by f_equal. Qed.

Lemma length_append (a b : string) :
  String.length (a +:+ b) = (String.length a + String.length b)%nat.
Proof. induction a as [|x a IH]; [done |]. rewrite append_cons. simpl. by f_equal. Qed.

Lemma length_zero_pad width n : String.length (zero_pad width n) = width.
Proof.
  revert n. induction width as [|w IH]; intros n; simpl; [done |].
  rewrite length_append, IH. simpl. lia.
Qed.

Lemma on_the_hour h :
  h mod ms_per_hour = 0 ->
  let r := h mod 86400000 in
  r mod 1000 = 0 /\ r / 1000 mod 60 = 0 /\ r / 60000 mod 60 = 0.
Proof.
  unfold ms_per_hour. intros Hh. cbn zeta.
  apply Z.mod_divide in Hh as [k ->]; [| lia].
  replace 86400000 with (24 * 3600000) by lia.
  rewrite Z.mul_mod_distr_r by lia. set (j := k mod 24).
  replace (j * 3600000) with (j * 3600 * 1000) at 1 2 by lia.
  replace (j * 3600000) with (j * 60 * 60000) by lia.
  rewrite !Z_div_mult, Z_mod_mult by lia.
  replace (j * 3600) with (j * 60 * 60) by lia. rewrite !Z_mod_mult. done.
Qed.

Lemma isoformat_on_the_hour h :
  h mod ms_per_hour = 0 ->
  exists date_hour, isoformat h = date_hour +:+ ":00:00" /\ String.length date_hour = 13%nat.
Proof.
  intros (Hms & Hs & Hm)%on_the_hour. unfold isoformat.
  destruct (civil_from_days (h / 86400000)) as [[y m] d].
  rewrite Hms, Hs, Hm. cbn [Z.eqb].
  exists (zero_pad 4 y +:+ "-" +:+ zero_pad 2 m +:+ "-" +:+ zero_pad 2 d +:+ "T" +:+
          zero_pad 2 (h mod 86400000 / 3600000)).
  split.
  - rewrite !append_assoc. reflexivity.
  - rewrite !length_append, !length_zero_pad. reflexivity.
Qed.

(** X16: every point of the hourly series is stamped on the hour: its [t] is a
    date and an hour (13 characters) followed by ":00:00", without a
    fraction. *)
Theorem project_stats_points_on_the_hour w project_id db s pt :
  project_stats w project_id db = Ok s ->
  pt ∈ Stats.hourly s ->
  exists date_hour,
    Stats.t pt = date_hour +:+ ":00:00" /\ String.length date_hour = 13%nat.
Proof.
  intros (_ & _ & _ & ->)%project_stats_inv ([h c] & -> & Hr)%list_elem_of_fmap.
  cbn [Stats.t fst]. apply isoformat_on_the_hour.
  unfold hourly_pipeline, stage_group_hour in Hr.
  apply stage_sort_id_elem in Hr.
  rewrite tally_lookup in Hr.
  destruct (length (List.filter (Z.eqb h) _)) eqn:Hlen; [discriminate |].
  assert (Hpos : (0 < length (List.filter (Z.eqb h)
                    (omap created_hour (stage_match
                       [("project_id", C_eq (VStr project_id));
                        ("created_at", C_gte (VDate (datetime_to_millis
                           (utcnow w - timedelta_hours 24))))]
                       (collection db "apievent")))))%nat) by lia.
  apply filter_nonempty in Hpos as (k & Hk & ->%Z.eqb_eq).
  apply list_elem_of_omap in Hk as (d & _ & Hd). unfold created_hour in Hd.
  destruct (doc_get d "created_at") as [[| | | | | | ms]|]; try discriminate.
  injection Hd as <-. by apply (dateTrunc_hour_spec ms).
Qed.

Lemma project_stats_points_on_the_hour_witness :
  exists date_hour,
    "2023-11-14T20:00:00" = date_hour +:+ ":00:00" /\ String.length date_hour = 13%nat.
Proof.
  apply (project_stats_points_on_the_hour Sample.w1 Sample.blog_id Sample.db1
           (Stats.Response 4 1 (VFloat (61 # 4))
              [ Stats.Point "2023-11-14T20:00:00" 2; Stats.Point "2023-11-14T23:00:00" 1 ])
           (Stats.Point "2023-11-14T20:00:00" 2)).
  - vm_compute. reflexivity.
  - constructor.
Defined.
